(** * Tremor showcase: the drawing canvas, the scorers, the report and the App

    Shallow embedding of
    - [ProcessingScreen.tsx], [calculateDemoScore]: the demo scorer that turns
      a drawn trace into a [ScoreData] record; [sendSpiralToBackend]: the
      variant that posts the trace to a scoring service; and the
      questionnaire screen held in the same file;
    - [ReportScreen.tsx], [getSeverityClassification] and
      [calculateSmoothness]: the report's severity label and smoothness
      label, and the texts it prints;
    - [SpiralCanvas.tsx], [drawReferenceSpiral]: the vertices of the reference
      spiral and the parameters [a], [b] handed to the scorer; and the
      handlers that record a drawing;
    - [App.tsx]: the handlers that move between the screens and what is
      rendered.

    A JavaScript [number] is modelled as a real number: [Math.sqrt],
    [Math.abs], [Math.min], [Math.max] and [Math.pow (_, 2)] are [sqrt],
    [Rabs], [Rmin], [Rmax] and squaring, and [Math.atan2] is the two-argument
    arctangent with values in (-PI, PI].  Rounding of binary64 arithmetic and
    the values NaN and Infinity are outside the model.  The two sources of
    nondeterminism of the scorer, [Math.random ()] and [Date.now ()], are
    explicit arguments.  The React state updates and the two [setTimeout]
    delays around the computation are not modelled; a run is represented by
    what it reports in the end, and a handler by its effect on the state the
    component has committed.  The scoring service itself is not among the
    sources: what it answers is an argument of [sendSpiralToBackend]. *)

From Stdlib Require Import Reals Lra Lia ZArith String Bool Arith List.
From Stdlib Require Import Sorted.
Import ListNotations.

Open Scope R_scope.

(** ** Data model (the interfaces shared by the components) *)

Record DrawingPoint := mkPoint { x : R; y : R; t : R }.

Record SpiralParams := mkParams { a : R; b : R }.

Record QuestionnaireData := mkInfo {
  age : string;
  hasMovementDisorder : string;
  disorderType : string
}.

(** The object literal stored under [features.metrics].  The three values
    produced with [toFixed (2)] are decimal strings with two fractional
    digits; each is represented by the integer number of hundredths that the
    string denotes. *)
Record Metrics := mkMetrics {
  total_points : nat;          (* 'Total points' *)
  total_time_ms : R;           (* 'Total time (ms)' *)
  average_variation : Z;       (* 'Average variation' *)
  average_distance : Z;        (* 'Average distance' *)
  spiral_deviation : Z         (* 'Spiral deviation' *)
}.

Record ScoreData := mkScore {
  spiral_id : R;
  severity_score : R;
  classification : string;
  features : Metrics
}.

(** What one run of [calculateDemoScore] leaves behind: [setError] was called
    with a fixed message, or with the message of an error caught from the
    [try] block, or [onComplete] receives the scored result. *)
Inductive Outcome :=
| Failed (message : string)
| Thrown
| Completed (result : ScoreData).

(** ** Host functions and control flow *)

Module Math.

(** [Math.atan2 (y, x)]: the angle of the point (x, y), in (-PI, PI]. *)
Definition atan2 (y0 x0 : R) : R :=
  if Rlt_dec 0 x0 then atan (y0 / x0)
  else if Rlt_dec x0 0 then
    (if Rle_dec 0 y0 then atan (y0 / x0) + PI else atan (y0 / x0) - PI)
  else if Rlt_dec 0 y0 then PI / 2
  else if Rlt_dec y0 0 then - (PI / 2)
  else 0.

End Math.

(** [Number.prototype.toFixed (2)]: the nearest multiple of 1/100, the larger
    one on a tie, the sign handled apart; the result is counted in
    hundredths. *)
Definition toFixed2 (v : R) : Z :=
  if Rlt_dec v 0 then (- Int_part (- v * 100 + / 2))%Z
  else Int_part (v * 100 + / 2).

(** Statements that may throw: reading a property of [undefined], which is
    what an array read past the end leads to, aborts the enclosing block. *)
Notation "v <- e ;; k" :=
  (match e with Some v => k | None => None end)
  (at level 61, e at next level, k at level 200, right associativity).

(** [for (let i = start; ...; i++)] running [count] times over a body that
    may throw. *)
Fixpoint for_range {St : Type} (body : St -> nat -> option St)
    (start count : nat) (s : St) : option St :=
  match count with
  | O => Some s
  | S k => s' <- body s start ;; for_range body (S start) k s'
  end.

(** ** ReportScreen.tsx *)

Module ReportScreen.

Definition getSeverityClassification (score : R) : string :=
  if Rlt_dec score (3 / 10) then "Normal"%string
  else if Rlt_dec score 1 then "Mild"%string
  else if Rlt_dec score 2 then "Moderate"%string
  else "Severe"%string.

(** Body of the loop of [calculateSmoothness]; the state is [variations]. *)
Definition calculateSmoothness_step (drawingData : list DrawingPoint)
    (variations : R) (i : nat) : option R :=
  p1 <- nth_error drawingData (i - 1) ;;
  p2 <- nth_error drawingData (i - 2) ;;
  let dx1 := x p1 - x p2 in
  let dy1 := y p1 - y p2 in
  p0 <- nth_error drawingData i ;;
  let dx2 := x p0 - x p1 in
  let dy2 := y p0 - y p1 in
  let dist1 := sqrt (dx1 * dx1 + dy1 * dy1) in
  let dist2 := sqrt (dx2 * dx2 + dy2 * dy2) in
  if Rlt_dec 0 dist1 then Some (variations + Rabs (dist2 - dist1))
  else Some variations.

Definition calculateSmoothness_variations (drawingData : list DrawingPoint)
    : option R :=
  for_range (calculateSmoothness_step drawingData) 2
            (length drawingData - 2) 0.

(** The smoothness label shown in the report. *)
Definition calculateSmoothness (drawingData : list DrawingPoint)
    : option string :=
  if (length drawingData <? 3)%nat then Some "N/A"%string
  else
    variations <- calculateSmoothness_variations drawingData ;;
    let avgVariation := variations / INR (length drawingData) in
    if Rlt_dec avgVariation 2 then Some "Excellent"%string
    else if Rlt_dec avgVariation 5 then Some "Good"%string
    else if Rlt_dec avgVariation 10 then Some "Fair"%string
    else Some "Variable"%string.

(** The severity label of the report, computed from the score it is
    given. *)
Definition severity (scoreData : ScoreData) : string :=
  getSeverityClassification (severity_score scoreData).

(** [{scoreData.severity_score.toFixed (2)}]: the score as printed beside
    the label, in hundredths. *)
Definition scoreText (scoreData : ScoreData) : Z :=
  toFixed2 (severity_score scoreData).

(** The 'Movement Disorder' line of the patient summary. *)
Definition movementDisorderShown (questionnaireData : QuestionnaireData)
    : string :=
  if String.eqb (hasMovementDisorder questionnaireData) "yes"
  then disorderType questionnaireData else "None"%string.

End ReportScreen.

(** ** SpiralCanvas.tsx: the reference spiral *)

Module SpiralCanvas.

Definition turns : R := 3.
Definition totalAngle : R := turns * 2 * PI.
Definition steps : R := 500.

(** The value [drawReferenceSpiral] returns. *)
Definition drawReferenceSpiral (width height : R) : SpiralParams :=
  let maxRadius := Rmin width height * (35 / 100) in
  {| a := 0; b := maxRadius / totalAngle |}.

(** The [i]-th vertex of the polyline it strokes, [i] from 0 to 500. *)
Definition referenceVertex (width height : R) (i : nat) : R * R :=
  let centerX := width / 2 in
  let centerY := height / 2 in
  let p := drawReferenceSpiral width height in
  let angle := (INR i / steps) * totalAngle in
  let radius := a p + b p * angle in
  (centerX + radius * cos angle, centerY + radius * sin angle).

(** *** The drawing handlers

    Each handler is a function of the state the component has committed and
    of what it reads from the page when the event arrives. *)

(** A mouse event carries one position, a touch event the list of its
    active touches. *)
Inductive PointerEvent :=
| MouseEvent (clientX clientY : R)
| TouchEvent (touches : list (R * R)).

(** The canvas element: its bounding rectangle and whether
    [getContext ('2d')] yields a context. *)
Record CanvasElement := mkCanvas {
  rect_left : R;
  rect_top : R;
  rect_width : R;
  rect_height : R;
  has_context : bool
}.

(** What a handler reads from the page: [canvasRef.current], [None] when it
    is null, and [Date.now ()]. *)
Record Page := mkPage {
  canvasRef : option CanvasElement;
  clock : R
}.

(** The two state variables and the two refs of the component. *)
Record CanvasState := mkCanvasState {
  isDrawing : bool;
  points : list DrawingPoint;
  startTimeRef : R;
  spiralParamsRef : option SpiralParams
}.

(** The state after the mount effect: the initial values of [useState] and
    [useRef], then the effect, which returns early without a canvas or a
    context. *)
Definition mount (page : Page) : CanvasState :=
  match canvasRef page with
  | Some element =>
      if has_context element then
        {| isDrawing := false;
           points := [];
           startTimeRef := clock page;
           spiralParamsRef :=
             Some (drawReferenceSpiral (rect_width element)
                                       (rect_height element)) |}
      else
        {| isDrawing := false; points := [];
           startTimeRef := 0; spiralParamsRef := None |}
  | None =>
      {| isDrawing := false; points := [];
         startTimeRef := 0; spiralParamsRef := None |}
  end.

Definition getCoordinates (s : CanvasState) (page : Page) (e : PointerEvent)
    : option DrawingPoint :=
  match canvasRef page with
  | None => None
  | Some element =>
      match e with
      | TouchEvent [] => None
      | TouchEvent ((clientX, clientY) :: _)
      | MouseEvent clientX clientY =>
          Some {| x := clientX - rect_left element;
                  y := clientY - rect_top element;
                  t := clock page - startTimeRef s |}
      end
  end.

Definition startDrawing (s : CanvasState) (page : Page) (e : PointerEvent)
    : CanvasState :=
  match getCoordinates s page e with
  | Some coords =>
      {| isDrawing := true; points := [coords];
         startTimeRef := startTimeRef s;
         spiralParamsRef := spiralParamsRef s |}
  | None =>
      {| isDrawing := true; points := points s;
         startTimeRef := startTimeRef s;
         spiralParamsRef := spiralParamsRef s |}
  end.

Definition draw (s : CanvasState) (page : Page) (e : PointerEvent)
    : CanvasState :=
  if isDrawing s then
    match getCoordinates s page e with
    | None => s
    | Some coords =>
        match canvasRef page with
        | Some element =>
            if has_context element then
              {| isDrawing := isDrawing s;
                 points := points s ++ [coords];
                 startTimeRef := startTimeRef s;
                 spiralParamsRef := spiralParamsRef s |}
            else s
        | None => s
        end
    end
  else s.

Definition stopDrawing (s : CanvasState) : CanvasState :=
  {| isDrawing := false; points := points s;
     startTimeRef := startTimeRef s;
     spiralParamsRef := spiralParamsRef s |}.

(** What [handleDone] does: an alert, or the call of [onComplete]. *)
Inductive DoneOutcome :=
| Alert (message : string)
| OnComplete (completedPoints : list DrawingPoint) (a0 b0 : R).

Definition handleDone (s : CanvasState) : DoneOutcome :=
  if (length (points s) =? 0)%nat then Alert "Please draw the spiral first"
  else
    match spiralParamsRef s with
    | Some params => OnComplete (points s) (a params) (b params)
    | None => Alert "Spiral parameters could not be determined."
    end.

(** The events bound to the canvas element: [onMouseDown] and
    [onTouchStart]; [onMouseMove] and [onTouchMove]; [onMouseUp],
    [onMouseLeave] and [onTouchEnd]. *)
Inductive CanvasEvent :=
| PointerDown (e : PointerEvent) (page : Page)
| PointerMove (e : PointerEvent) (page : Page)
| PointerUp.

Definition handleCanvasEvent (s : CanvasState) (ev : CanvasEvent)
    : CanvasState :=
  match ev with
  | PointerDown e page => startDrawing s page e
  | PointerMove e page => draw s page e
  | PointerUp => stopDrawing s
  end.

(** A drawing session: the mount effect, then the events in order. *)
Definition session (mounted : Page) (events : list CanvasEvent)
    : CanvasState :=
  fold_left handleCanvasEvent events (mount mounted).

End SpiralCanvas.

(** ** ProcessingScreen.tsx: [calculateDemoScore] *)

Module ProcessingScreen.

(** Body of the first loop; the state is [(variations, totalDistance)]. *)
Definition variation_step (spiralPoints : list DrawingPoint)
    (st : R * R) (i : nat) : option (R * R) :=
  let '(variations, totalDistance) := st in
  p0 <- nth_error spiralPoints i ;;
  p1 <- nth_error spiralPoints (i - 1) ;;
  let dx := x p0 - x p1 in
  let dy := y p0 - y p1 in
  let dist := sqrt (dx * dx + dy * dy) in
  let totalDistance := totalDistance + dist in
  if (1 <? i)%nat then
    p2 <- nth_error spiralPoints (i - 2) ;;
    let prevDx := x p1 - x p2 in
    let prevDy := y p1 - y p2 in
    let prevDist := sqrt (prevDx * prevDx + prevDy * prevDy) in
    Some (variations + Rabs (dist - prevDist), totalDistance)
  else Some (variations, totalDistance).

Definition variation_loop (spiralPoints : list DrawingPoint)
    : option (R * R) :=
  for_range (variation_step spiralPoints) 1 (length spiralPoints - 1) (0, 0).

(** Body of the second loop; the state is [deviation]. *)
Definition deviation_step (spiralPoints : list DrawingPoint)
    (spiralParams : SpiralParams) (deviation : R) (i : nat) : option R :=
  point <- nth_error spiralPoints i ;;
  let angle :=
    Math.atan2 (y point - a spiralParams) (x point - a spiralParams) in
  let idealRadius := a spiralParams + b spiralParams * angle in
  let actualRadius :=
    sqrt ((x point - a spiralParams) ^ 2
          + (y point - a spiralParams) ^ 2) in
  Some (deviation + Rabs (actualRadius - idealRadius)).

Definition deviation_loop (spiralPoints : list DrawingPoint)
    (spiralParams : SpiralParams) : option R :=
  for_range (deviation_step spiralPoints spiralParams) 0
            (Nat.min 100 (length spiralPoints)) 0.

Definition totalTime (spiralPoints : list DrawingPoint) : option R :=
  if (0 <? length spiralPoints)%nat then
    p <- nth_error spiralPoints (length spiralPoints - 1) ;; Some (t p)
  else Some 0.

Definition avgVariation (spiralPoints : list DrawingPoint) : option R :=
  st <- variation_loop spiralPoints ;;
  Some (fst st / Rmax 1 (INR (length spiralPoints) - 2)).

Definition avgDistance (spiralPoints : list DrawingPoint) : option R :=
  st <- variation_loop spiralPoints ;;
  Some (snd st / Rmax 1 (INR (length spiralPoints) - 1)).

Definition deviation (spiralPoints : list DrawingPoint)
    (spiralParams : SpiralParams) : option R :=
  d <- deviation_loop spiralPoints spiralParams ;;
  Some (d / Rmin 100 (INR (length spiralPoints))).

Definition smoothnessScore (avgVar : R) : R := Rmin (avgVar / 10) 2.
Definition deviationScore (dev : R) : R := Rmin (dev / 50) 2.
Definition baseScore (avgVar dev : R) : R :=
  (smoothnessScore avgVar + deviationScore dev) / 2.

Definition adjustedScore (patientInfo : QuestionnaireData) (base : R) : R :=
  if String.eqb (hasMovementDisorder patientInfo) "yes"
  then base + 3 / 10 else base.

(** [random] is the value [Math.random ()] returned. *)
Definition randomFactor (random : R) : R := (random - 5 / 10) * (4 / 10).

(** The score before [Math.max (0, Math.min (3, _))]. *)
Definition preClampScore (patientInfo : QuestionnaireData)
    (avgVar dev random : R) : R :=
  adjustedScore patientInfo (baseScore avgVar dev) + randomFactor random.

Definition finalScore (patientInfo : QuestionnaireData)
    (avgVar dev random : R) : R :=
  Rmax 0 (Rmin 3 (preClampScore patientInfo avgVar dev random)).

(** The [try] block: [None] when a statement in it throws. *)
Definition scoreTrace (patientInfo : QuestionnaireData)
    (spiralPoints : list DrawingPoint) (spiralParams : SpiralParams)
    (random now : R) : option ScoreData :=
  time <- totalTime spiralPoints ;;
  avgVar <- avgVariation spiralPoints ;;
  avgDist <- avgDistance spiralPoints ;;
  dev <- deviation spiralPoints spiralParams ;;
  Some {| spiral_id := now;
          severity_score := finalScore patientInfo avgVar dev random;
          classification := "tremor_score_demo";
          features :=
            {| total_points := length spiralPoints;
               total_time_ms := time;
               average_variation := toFixed2 avgVar;
               average_distance := toFixed2 avgDist;
               spiral_deviation := toFixed2 dev |} |}.

Definition missing_message : string :=
  "Missing patient data, spiral points, or spiral parameters".

(** [patientInfo] and [spiralParams] are tested with [!]: [None] is a null
    or undefined prop. [random] and [now] are what [Math.random ()] and
    [Date.now ()] return in this run. *)
Definition calculateDemoScore (patientInfo : option QuestionnaireData)
    (spiralPoints : list DrawingPoint) (spiralParams : option SpiralParams)
    (random now : R) : Outcome :=
  match patientInfo, spiralParams with
  | Some info, Some params =>
      if (length spiralPoints =? 0)%nat then Failed missing_message
      else
        match scoreTrace info spiralPoints params random now with
        | Some scoredResult => Completed scoredResult
        | None => Thrown
        end
  | _, _ => Failed missing_message
  end.

(** The term the second loop adds for one point. *)
Definition deviation_term (spiralParams : SpiralParams) (point : DrawingPoint)
    : R :=
  Rabs (sqrt ((x point - a spiralParams) ^ 2 + (y point - a spiralParams) ^ 2)
        - (a spiralParams
           + b spiralParams
             * Math.atan2 (y point - a spiralParams)
                          (x point - a spiralParams))).

End ProcessingScreen.

(** ** ProcessingScreen.tsx, the variant that asks the scoring service *)

Module BackendProcessingScreen.

Definition mmPerUnit : R := 264583 / 1000000.

Record PayloadPoint := mkPayloadPoint {
  point_x : R;
  point_y : R;
  t_ms : R
}.

Record FormJson := mkForm {
  form_age : Z;
  has_tremor : bool;
  on_medication : bool;
  movement_disorder : string;
  form_a : R;
  form_b : R
}.

Record Payload := mkPayload {
  user_id : Z;
  device_name : string;
  dpi : R;
  mm_per_unit : R;
  form_json : FormJson;
  raw_json : list PayloadPoint;
  normalized_json : list PayloadPoint;
  png_path : string
}.

(** A promise that has settled. *)
Inductive Settled (A : Type) :=
| Fulfilled (value : A)
| Rejected (message : string).

Arguments Fulfilled {A} value.
Arguments Rejected {A} message.

(** The text of the error the screen shows.  [BackendError stage status
    errorText] stands for the template string
    'Backend error ([stage]): [status] - [errorText]'. *)
Inductive ErrorText :=
| MissingProps
| BackendError (stage : string) (status : Z) (errorText : string)
| HostMessage (message : string).

Section Host.

(** [parseInt]: [None] is NaN. *)
Variable parseInt : string -> option Z.

(** The values response bodies parse to, and the text of [value.id] in a
    template string: [None] when [value] is null or undefined, so that
    reading the property throws, with the message given. *)
Variable Json : Type.
Variable idText : Json -> option string.
Variable nullReadMessage : string.

(** A response: its [ok] flag and [status], and what [text ()] and
    [json ()] settle to. *)
Record Response := mkResponse {
  ok : bool;
  status : Z;
  text : Settled string;
  json : Settled Json
}.

Inductive Request :=
| CreateSpiral (payload : Payload)      (* POST BACKEND_URL/spirals/ *)
| ScoreSpiral (id : string).            (* POST BACKEND_URL/spirals/id/score *)

Inductive BackendOutcome :=
| ShowError (message : ErrorText)
| CallOnComplete (scoredResult : Json).

Definition buildPayload (patientInfo : QuestionnaireData)
    (spiralPoints : list DrawingPoint) (spiralParams : SpiralParams)
    : Payload :=
  {| user_id := 1;
     device_name := "Web Browser";
     dpi := 96;
     mm_per_unit := mmPerUnit;
     form_json :=
       {| form_age :=
            match parseInt (age patientInfo) with
            | Some n => n
            | None => 0%Z
            end;
          has_tremor := String.eqb (hasMovementDisorder patientInfo) "yes";
          on_medication := false;
          movement_disorder :=
            if String.eqb (disorderType patientInfo) ""
            then "None"%string else disorderType patientInfo;
          form_a := a spiralParams * mmPerUnit;
          form_b := b spiralParams * mmPerUnit |};
     raw_json :=
       map (fun p => {| point_x := x p; point_y := y p; t_ms := t p |})
           spiralPoints;
     normalized_json :=
       map (fun p => {| point_x := x p * mmPerUnit;
                        point_y := y p * mmPerUnit;
                        t_ms := t p |})
           spiralPoints;
     png_path := "" |}.

(** The second half of the [try] block, once the spiral is created. *)
Definition scoreCreated (fetch : Request -> Settled Response)
    (savedSpiralData : Json) : list Request * BackendOutcome :=
  match idText savedSpiralData with
  | None => ([], ShowError (HostMessage nullReadMessage))
  | Some id =>
      ([ScoreSpiral id],
       match fetch (ScoreSpiral id) with
       | Rejected message => ShowError (HostMessage message)
       | Fulfilled scoreResponse =>
           if negb (ok scoreResponse) then
             match text scoreResponse with
             | Rejected message => ShowError (HostMessage message)
             | Fulfilled errorText =>
                 ShowError (BackendError "score spiral"
                              (status scoreResponse) errorText)
             end
           else
             match json scoreResponse with
             | Rejected message => ShowError (HostMessage message)
             | Fulfilled scoredResult => CallOnComplete scoredResult
             end
       end)
  end.

(** The requests sent, in order, and how the run ends.  [fetch] gives what
    each request settles to. *)
Definition sendSpiralToBackend (patientInfo : option QuestionnaireData)
    (spiralPoints : list DrawingPoint) (spiralParams : option SpiralParams)
    (fetch : Request -> Settled Response) : list Request * BackendOutcome :=
  match patientInfo, spiralParams with
  | Some info, Some params =>
      if (length spiralPoints =? 0)%nat then ([], ShowError MissingProps)
      else
        let payload := buildPayload info spiralPoints params in
        match fetch (CreateSpiral payload) with
        | Rejected message =>
            ([CreateSpiral payload], ShowError (HostMessage message))
        | Fulfilled createResponse =>
            if negb (ok createResponse) then
              match text createResponse with
              | Rejected message =>
                  ([CreateSpiral payload], ShowError (HostMessage message))
              | Fulfilled errorText =>
                  ([CreateSpiral payload],
                   ShowError (BackendError "create spiral"
                                (status createResponse) errorText))
              end
            else
              match json createResponse with
              | Rejected message =>
                  ([CreateSpiral payload], ShowError (HostMessage message))
              | Fulfilled savedSpiralData =>
                  let '(requests, outcome) :=
                    scoreCreated fetch savedSpiralData in
                  (CreateSpiral payload :: requests, outcome)
              end
        end
  | _, _ => ([], ShowError MissingProps)
  end.

End Host.

Arguments mkResponse {Json} ok status text json.
Arguments ok {Json} r.
Arguments status {Json} r.
Arguments text {Json} r.
Arguments json {Json} r.
Arguments ShowError {Json} message.
Arguments CallOnComplete {Json} scoredResult.

End BackendProcessingScreen.

(** ** QuestionnaireScreen.tsx *)

Module QuestionnaireScreen.

Definition options : list string := ["yes"; "no"]%string.

Definition disorders : list string :=
  ["Parkinson's Disease"; "Essential Tremor"; "Dystonia"; "Other"]%string.

(** The three [useState] values, as one record. *)
Definition initial : QuestionnaireData :=
  {| age := ""; hasMovementDisorder := ""; disorderType := "" |}.

(** A string in a condition: true unless empty. *)
Definition truthy (s : string) : bool := negb (String.eqb s "").

Definition isValid (s : QuestionnaireData) : bool :=
  truthy (age s) && truthy (hasMovementDisorder s)
  && (String.eqb (hasMovementDisorder s) "no" || truthy (disorderType s)).

(** What [handleSubmit] passes to [onConfirm], if anything. *)
Definition handleSubmit (s : QuestionnaireData) : option QuestionnaireData :=
  if truthy (age s) && truthy (hasMovementDisorder s)
  then Some {| age := age s;
               hasMovementDisorder := hasMovementDisorder s;
               disorderType := disorderType s |}
  else None.

(** The age field, the two radio groups and the Confirm button. *)
Inductive Event :=
| AgeChange (value : string)
| OptionChange (option : string)
| DisorderChange (disorder : string)
| ConfirmClick.

(** One event: the new state and what is confirmed.  A radio button exists
    only for a listed value, the disorder group is rendered only when the
    answer is 'yes', and the button is disabled unless [isValid]. *)
Definition step (s : QuestionnaireData) (ev : Event)
    : QuestionnaireData * option QuestionnaireData :=
  match ev with
  | AgeChange value =>
      ({| age := value;
          hasMovementDisorder := hasMovementDisorder s;
          disorderType := disorderType s |}, None)
  | OptionChange option =>
      if existsb (String.eqb option) options then
        ({| age := age s;
            hasMovementDisorder := option;
            disorderType :=
              if String.eqb option "no" then ""%string
              else disorderType s |}, None)
      else (s, None)
  | DisorderChange disorder =>
      if String.eqb (hasMovementDisorder s) "yes"
         && existsb (String.eqb disorder) disorders then
        ({| age := age s;
            hasMovementDisorder := hasMovementDisorder s;
            disorderType := disorder |}, None)
      else (s, None)
  | ConfirmClick =>
      if isValid s then (s, handleSubmit s) else (s, None)
  end.

Definition run (events : list Event) : QuestionnaireData :=
  fold_left (fun s ev => fst (step s ev)) events initial.

End QuestionnaireScreen.

(** ** App.tsx *)

Module App.

Inductive Screen :=
| home | questionnaire | instruction | canvas | processing | report.

Record AppState := mkApp {
  currentScreen : Screen;
  questionnaireData : QuestionnaireData;
  drawingData : list DrawingPoint;
  spiralParams : option SpiralParams;
  scoreData : option ScoreData
}.

Definition initial : AppState :=
  {| currentScreen := home;
     questionnaireData :=
       {| age := ""; hasMovementDisorder := ""; disorderType := "" |};
     drawingData := [];
     spiralParams := None;
     scoreData := None |}.

Definition setCurrentScreen (s : AppState) (screen : Screen) : AppState :=
  {| currentScreen := screen;
     questionnaireData := questionnaireData s;
     drawingData := drawingData s;
     spiralParams := spiralParams s;
     scoreData := scoreData s |}.

Definition handleStart (s : AppState) : AppState :=
  setCurrentScreen s questionnaire.

Definition handleQuestionnaireConfirm (s : AppState)
    (data : QuestionnaireData) : AppState :=
  {| currentScreen := instruction;
     questionnaireData := data;
     drawingData := drawingData s;
     spiralParams := spiralParams s;
     scoreData := scoreData s |}.

Definition handleInstructionSkip (s : AppState) : AppState :=
  setCurrentScreen s canvas.

Definition handleInstructionContinue (s : AppState) : AppState :=
  setCurrentScreen s canvas.

Definition handleCanvasComplete (s : AppState)
    (points : list DrawingPoint) (a0 b0 : R) : AppState :=
  {| currentScreen := processing;
     questionnaireData := questionnaireData s;
     drawingData := points;
     spiralParams := Some {| a := a0; b := b0 |};
     scoreData := scoreData s |}.

Definition handleProcessingComplete (s : AppState) (score : ScoreData)
    : AppState :=
  {| currentScreen := report;
     questionnaireData := questionnaireData s;
     drawingData := drawingData s;
     spiralParams := spiralParams s;
     scoreData := Some score |}.

Definition handleReturnHome (s : AppState) : AppState := initial.

(** The component the App returns, with its props; [Blank] when no line of
    the JSX applies. *)
Inductive Rendered :=
| Blank
| ShowHome
| ShowQuestionnaire
| ShowInstruction
| ShowCanvas
| ShowProcessing (patientInfo : QuestionnaireData)
    (spiralPoints : list DrawingPoint) (params : SpiralParams)
| ShowReport (drawing : list DrawingPoint)
    (questionnaire_data : QuestionnaireData) (score : ScoreData).

Definition render (s : AppState) : Rendered :=
  match currentScreen s with
  | home => ShowHome
  | questionnaire => ShowQuestionnaire
  | instruction => ShowInstruction
  | canvas => ShowCanvas
  | processing =>
      if (0 <? length (drawingData s))%nat then
        match spiralParams s with
        | Some params =>
            ShowProcessing (questionnaireData s) (drawingData s) params
        | None => Blank
        end
      else Blank
  | report =>
      if (0 <? length (drawingData s))%nat then
        match scoreData s with
        | Some score => ShowReport (drawingData s) (questionnaireData s) score
        | None => Blank
        end
      else Blank
  end.

(** The calls the rendered component can make of the callback it was
    given. *)
Inductive Event :=
| Start
| QuestionnaireConfirm (data : QuestionnaireData)
| InstructionSkip
| InstructionContinue
| CanvasComplete (points : list DrawingPoint) (a0 b0 : R)
| ProcessingComplete (score : ScoreData)
| ReturnHome.

(** A callback is called only by the component that holds it. *)
Definition step (s : AppState) (ev : Event) : AppState :=
  match render s, ev with
  | ShowHome, Start => handleStart s
  | ShowQuestionnaire, QuestionnaireConfirm data =>
      handleQuestionnaireConfirm s data
  | ShowInstruction, InstructionSkip => handleInstructionSkip s
  | ShowInstruction, InstructionContinue => handleInstructionContinue s
  | ShowCanvas, CanvasComplete points a0 b0 =>
      handleCanvasComplete s points a0 b0
  | ShowProcessing _ _ _, ProcessingComplete score =>
      handleProcessingComplete s score
  | ShowReport _ _ _, ReturnHome => handleReturnHome s
  | _, _ => s
  end.

Definition run (events : list Event) : AppState :=
  fold_left step events initial.

End App.

Import Math ReportScreen SpiralCanvas ProcessingScreen.

(** ** The specification's formulas, written from its words *)

Definition Rsum (l : list R) : R := fold_right Rplus 0 l.

(** Distance between two samples. *)
Definition distance (p q : DrawingPoint) : R :=
  sqrt ((x q - x p) * (x q - x p) + (y q - y p) * (y q - y p)).

(** The inter-point distances of a trace, in order. *)
Fixpoint segment_lengths (pts : list DrawingPoint) : list R :=
  match pts with
  | p :: (q :: _) as rest => distance p q :: segment_lengths rest
  | _ => []
  end.

(** Absolute differences between consecutive entries. *)
Fixpoint abs_changes (ds : list R) : list R :=
  match ds with
  | d1 :: (d2 :: _) as rest => Rabs (d2 - d1) :: abs_changes rest
  | _ => []
  end.

(** [path_smoothness]: mean absolute difference between consecutive
    inter-point distances. *)
Definition spec_path_smoothness (pts : list DrawingPoint) : R :=
  Rsum (abs_changes (segment_lengths pts))
  / INR (length (abs_changes (segment_lengths pts))).

(** Polar transformer: the signed shortest-path delta between two raw
    angles, and the running unwrapped total. *)
Definition spec_shortest_delta (d : R) : R :=
  if Rlt_dec PI d then d - 2 * PI
  else if Rle_dec d (- PI) then d + 2 * PI
  else d.

Fixpoint spec_unwrap_from (prev_raw prev_theta : R) (raws : list R)
    : list R :=
  match raws with
  | [] => []
  | r :: rest =>
      let theta := prev_theta + spec_shortest_delta (r - prev_raw) in
      theta :: spec_unwrap_from r theta rest
  end.

Definition spec_unwrap (raws : list R) : list R :=
  match raws with
  | [] => []
  | r :: rest => r :: spec_unwrap_from r r rest
  end.

Definition spec_radius (centerX centerY : R) (p : DrawingPoint) : R :=
  sqrt ((x p - centerX) ^ 2 + (y p - centerY) ^ 2).

Definition spec_raw_angle (centerX centerY : R) (p : DrawingPoint) : R :=
  atan2 (y p - centerY) (x p - centerX).

(** [radial_deviation]: mean over all points of |radius - (a + b * theta)|
    at the unwrapped angle about the spiral's centre. *)
Definition spec_radial_deviation (centerX centerY : R)
    (params : SpiralParams) (pts : list DrawingPoint) : R :=
  let thetas := spec_unwrap (map (spec_raw_angle centerX centerY) pts) in
  Rsum (map (fun pth : DrawingPoint * R =>
               Rabs (spec_radius centerX centerY (fst pth)
                     - (a params + b params * snd pth)))
            (combine pts thetas))
  / INR (length pts).

(** A sample lying on the spiral [radius = a + b * theta] about a centre. *)
Definition on_spiral (centerX centerY : R) (params : SpiralParams)
    (theta : R) (p : DrawingPoint) : Prop :=
  x p = centerX + (a params + b params * theta) * cos theta /\
  y p = centerY + (a params + b params * theta) * sin theta.

(** Trace cleaner: a point is kept when its time strictly exceeds that of the
    previous kept point and it is not within [eps] of it. *)
Fixpoint spec_clean_from (eps : R) (prev : DrawingPoint)
    (pts : list DrawingPoint) : list DrawingPoint :=
  match pts with
  | [] => []
  | p :: rest =>
      if Rlt_dec (t prev) (t p) then
        if Rlt_dec (distance prev p) eps then spec_clean_from eps prev rest
        else p :: spec_clean_from eps p rest
      else spec_clean_from eps prev rest
  end.

Definition spec_clean (eps : R) (pts : list DrawingPoint)
    : list DrawingPoint :=
  match pts with
  | [] => []
  | p :: rest => p :: spec_clean_from eps p rest
  end.

(** Severity scorer: a weight table and a z-score mapping are association
    lists from metric names; a metric without a weight counts with weight
    0. *)
Definition spec_weight (weights : list (string * R)) (m : string) : R :=
  match find (fun e => String.eqb (fst e) m) weights with
  | Some e => snd e
  | None => 0
  end.

Definition spec_severity_score (weights z : list (string * R)) : R :=
  Rsum (map (fun e => spec_weight weights (fst e) * snd e) z)
  / Rsum (map (fun e => Rabs (spec_weight weights (fst e))) z).

(** The demo scorer's two normalised metrics, read as a z-score mapping, and
    the weight table that weighs them equally. *)
Definition demo_z_scores (avgVar dev : R) : list (string * R) :=
  [("path_smoothness"%string, smoothnessScore avgVar);
   ("radial_deviation"%string, deviationScore dev)].

Definition demo_weights : list (string * R) :=
  [("path_smoothness"%string, 1); ("radial_deviation"%string, 1)].

(** ** Concrete inputs *)

Definition info_no : QuestionnaireData :=
  {| age := "64"; hasMovementDisorder := "no"; disorderType := "" |}.

Definition info_yes : QuestionnaireData :=
  {| age := "64"; hasMovementDisorder := "yes";
     disorderType := "essential tremor" |}.

(** The parameters of a 400 by 400 canvas: centre (200, 200), a = 0,
    b = 140 / (6 PI). *)
Definition canvas_params : SpiralParams := drawReferenceSpiral 400 400.

Definition unit_params : SpiralParams := {| a := 0; b := 1 |}.

(** One sample repeated ten times. *)
Definition duplicated_trace : list DrawingPoint :=
  repeat (mkPoint 120 350 0) 10.

(** Five samples on the reference spiral of the 400 by 400 canvas, a quarter
    turn apart, from theta = 0 to theta = 2 PI. *)
Definition quarter_turn_angles : list R :=
  [0; PI / 2; PI; 3 * (PI / 2); 2 * PI].

Definition quarter_turn_trace : list DrawingPoint :=
  [mkPoint 200 200 0;
   mkPoint 200 (200 + 35 / 3) 100;
   mkPoint (200 - 70 / 3) 200 200;
   mkPoint 200 (200 - 35) 300;
   mkPoint (200 + 140 / 3) 200 400].

(** Three samples on the spiral [radius = theta] about the origin, at
    theta = 0, PI / 2 and PI. *)
Definition half_turn_trace : list DrawingPoint :=
  [mkPoint 0 0 0; mkPoint 0 (PI / 2) 100; mkPoint (- PI) 0 200].

(** Five samples on the same spiral, a quarter turn apart, from theta = 0 to
    theta = 2 PI: the last two lie past the half turn. *)
Definition full_turn_trace : list DrawingPoint :=
  [mkPoint 0 0 0;
   mkPoint 0 (PI / 2) 100;
   mkPoint (- PI) 0 200;
   mkPoint 0 (- (3 * (PI / 2))) 300;
   mkPoint (2 * PI) 0 400].

Definition origin_trace : list DrawingPoint := [mkPoint 0 0 0].
Definition offset_trace : list DrawingPoint := [mkPoint 3 0 0].

(** Three samples: a step of length 5, then no movement. *)
Definition halting_trace : list DrawingPoint :=
  [mkPoint 0 0 0; mkPoint 3 4 16; mkPoint 3 4 33].

(** Two traces of more than 100 samples with the same first 100. *)
Definition long_trace_1 : list DrawingPoint :=
  repeat (mkPoint 3 0 0) 100 ++ [mkPoint 50 60 1700].

Definition long_trace_2 : list DrawingPoint :=
  repeat (mkPoint 3 0 0) 100 ++ [mkPoint 7 8 1700; mkPoint 900 20 1716].

(** ** Further definitions used in statements *)

(** The changes the report's smoothness loop adds: a change counts only
    after a step of positive length. *)
Fixpoint moving_changes (ds : list R) : list R :=
  match ds with
  | d1 :: (d2 :: _) as rest =>
      (if Rlt_dec 0 d1 then Rabs (d2 - d1) else 0) :: moving_changes rest
  | _ => []
  end.

(** The successor of a screen in the flow of the App. *)
Definition next_screen (s : App.Screen) : App.Screen :=
  match s with
  | App.home => App.questionnaire
  | App.questionnaire => App.instruction
  | App.instruction => App.canvas
  | App.canvas => App.processing
  | App.processing => App.report
  | App.report => App.home
  end.


(** A pointer event from which [getCoordinates] obtains a position. *)
Definition locatable (page : Page) (e : PointerEvent) : Prop :=
  canvasRef page <> None /\ e <> TouchEvent [].

Definition has_no_pointer_down (events : list CanvasEvent) : Prop :=
  forall e page, ~ In (PointerDown e page) events.

(** What every reachable state of the questionnaire satisfies. *)
Definition questionnaire_invariant (s : QuestionnaireData) : Prop :=
  (hasMovementDisorder s = ""%string \/
   hasMovementDisorder s = "yes"%string \/
   hasMovementDisorder s = "no"%string) /\
  (disorderType s = ""%string \/
   (hasMovementDisorder s = "yes"%string /\
    In (disorderType s) QuestionnaireScreen.disorders)).

(** What the canvas guarantees of its call of [onComplete]. *)
Definition canvas_contract (ev : App.Event) : Prop :=
  match ev with
  | App.CanvasComplete points _ _ => points <> []
  | _ => True
  end.

(** What every reachable state of the App satisfies under that contract. *)
Definition app_invariant (s : App.AppState) : Prop :=
  match App.currentScreen s with
  | App.home => s = App.initial
  | App.questionnaire | App.instruction | App.canvas =>
      App.drawingData s = [] /\ App.spiralParams s = None /\
      App.scoreData s = None
  | App.processing =>
      App.drawingData s <> [] /\ App.spiralParams s <> None /\
      App.scoreData s = None
  | App.report =>
      App.drawingData s <> [] /\ App.spiralParams s <> None /\
      App.scoreData s <> None
  end.

(** ** Concrete sessions *)

(** A 400 by 400 canvas placed at (20, 80) of the page. *)
Definition demo_canvas : CanvasElement :=
  {| rect_left := 20; rect_top := 80; rect_width := 400;
     rect_height := 400; has_context := true |}.

Definition page_at (time : R) : Page :=
  {| canvasRef := Some demo_canvas; clock := time |}.

(** A stroke that is given up, then a second stroke by touch, and a move of
    the mouse after the finger has been lifted. *)
Definition first_stroke : list CanvasEvent :=
  [PointerDown (MouseEvent 220 280) (page_at 1500);
   PointerMove (MouseEvent 230 285) (page_at 1516);
   PointerUp].

Definition second_stroke_rest : list CanvasEvent :=
  [PointerMove (TouchEvent [(225, 290)]) (page_at 2016);
   PointerUp;
   PointerMove (MouseEvent 300 300) (page_at 2100)].

Definition two_strokes : list CanvasEvent :=
  first_stroke
  ++ PointerDown (TouchEvent [(221, 281)]) (page_at 2000)
     :: second_stroke_rest.

Definition pen_up_moves : list CanvasEvent :=
  [PointerMove (MouseEvent 300 300) (page_at 2100);
   PointerUp;
   PointerMove (MouseEvent 310 305) (page_at 2116)].

(** A press at the centre of the canvas, released at once. *)
Definition centre_tap_events : list CanvasEvent :=
  [PointerDown (MouseEvent 220 280) (page_at 1500); PointerUp].

Definition centre_tap : list DrawingPoint := [mkPoint 200 200 500].

(** Age 64, 'yes' with a disorder chosen, then 'no'. *)
Definition answers : list QuestionnaireScreen.Event :=
  [QuestionnaireScreen.AgeChange "64";
   QuestionnaireScreen.OptionChange "yes";
   QuestionnaireScreen.DisorderChange "Dystonia";
   QuestionnaireScreen.OptionChange "no"].

(** A visit up to the hand-over of a one-sample drawing. *)
Definition visit : list App.Event :=
  [App.Start;
   App.QuestionnaireConfirm info_no;
   App.InstructionContinue;
   App.CanvasComplete origin_trace 0 1].

(** The processing screen entered with an empty drawing. *)
Definition empty_drawing_state : App.AppState :=
  {| App.currentScreen := App.processing;
     App.questionnaireData := info_no;
     App.drawingData := [];
     App.spiralParams := Some unit_params;
     App.scoreData := None |}.

(** A reading of the age field for the sample payload: the questionnaire
    of the samples holds the text 64. *)
Definition sample_parseInt (s : string) : option Z :=
  if String.eqb s "64" then Some 64%Z else None.

Definition sample_payload : BackendProcessingScreen.Payload :=
  BackendProcessingScreen.buildPayload sample_parseInt info_no
    half_turn_trace unit_params.

(** A scoring service for the samples.  Bodies are modelled by their text:
    the body of the answer to the creation stands for an object whose [id]
    prints as 7, and only the spiral of that id can be scored. *)
Definition sample_fetch (request : BackendProcessingScreen.Request)
    : BackendProcessingScreen.Settled
        (BackendProcessingScreen.Response string) :=
  match request with
  | BackendProcessingScreen.CreateSpiral _ =>
      BackendProcessingScreen.Fulfilled
        {| BackendProcessingScreen.ok := true;
           BackendProcessingScreen.status := 200;
           BackendProcessingScreen.text :=
             BackendProcessingScreen.Fulfilled "7"%string;
           BackendProcessingScreen.json :=
             BackendProcessingScreen.Fulfilled "7"%string |}
  | BackendProcessingScreen.ScoreSpiral id =>
      if String.eqb id "7" then
        BackendProcessingScreen.Fulfilled
          {| BackendProcessingScreen.ok := true;
             BackendProcessingScreen.status := 200;
             BackendProcessingScreen.text :=
               BackendProcessingScreen.Fulfilled "scored"%string;
             BackendProcessingScreen.json :=
               BackendProcessingScreen.Fulfilled "scored"%string |}
      else
        BackendProcessingScreen.Fulfilled
          {| BackendProcessingScreen.ok := false;
             BackendProcessingScreen.status := 404;
             BackendProcessingScreen.text :=
               BackendProcessingScreen.Fulfilled "Not Found"%string;
             BackendProcessingScreen.json :=
               BackendProcessingScreen.Rejected "Unexpected token"%string |}
  end.

(** * Properties *)

(** ** The report's classifier *)

Ltac classify :=
  unfold getSeverityClassification;
  repeat (destruct (Rlt_dec _ _)); try lra; try reflexivity.

(** C1. The classifier maps a score to its class exactly at the documented
    boundaries: below 0.3 Normal, from 0.3 up to but excluding 1.0 Mild, from
    1.0 up to but excluding 2.0 Moderate, from 2.0 on Severe; 0.299999 is
    Normal and exactly 0.3 is Mild. *)
Theorem getSeverityClassification_boundaries :
  (forall s, s < 3 / 10 -> getSeverityClassification s = "Normal"%string) /\
  (forall s, 3 / 10 <= s < 1 ->
             getSeverityClassification s = "Mild"%string) /\
  (forall s, 1 <= s < 2 ->
             getSeverityClassification s = "Moderate"%string) /\
  (forall s, 2 <= s -> getSeverityClassification s = "Severe"%string) /\
  getSeverityClassification (299999 / 1000000) = "Normal"%string /\
  getSeverityClassification (3 / 10) = "Mild"%string.
Proof.
  repeat split; intros; classify.
Qed.

Lemma getSeverityClassification_boundaries_witness :
  getSeverityClassification (17 / 10) = "Moderate"%string.
Proof.
  apply (proj1 (proj2 (proj2 getSeverityClassification_boundaries))).
  lra.
Defined.

(** ** The loops of the scorer never throw, and what they add up *)

Lemma skipn_cons_nth_error (A : Type) (l : list A) (i : nat) (v : A) :
  nth_error l i = Some v -> skipn i l = v :: skipn (S i) l.
Proof.
  revert i; induction l as [|h tl IH]; intros [|i] H;
    simpl in *; try discriminate.
  - now inversion H.
  - now apply IH.
Qed.

Lemma nth_error_in_range (A : Type) (l : list A) (i : nat) :
  (i < length l)%nat -> exists v, nth_error l i = Some v.
Proof.
  intros H. destruct (nth_error l i) eqn:E; [now eexists|].
  apply nth_error_None in E. lia.
Qed.

Lemma segment_lengths_short (l : list DrawingPoint) :
  (length l <= 1)%nat -> segment_lengths l = [].
Proof.
  destruct l as [|p [|q r]]; simpl; intros; try reflexivity; lia.
Qed.

Lemma abs_changes_short (l : list DrawingPoint) :
  (length l <= 2)%nat -> abs_changes (segment_lengths l) = [].
Proof.
  destruct l as [|p [|q [|s r]]]; simpl; intros; try reflexivity; lia.
Qed.

Lemma segment_lengths_length (l : list DrawingPoint) :
  length (segment_lengths l) = (length l - 1)%nat.
Proof.
  induction l as [|p [|q r] IH]; try reflexivity.
  change (segment_lengths (p :: q :: r))
    with (distance p q :: segment_lengths (q :: r)).
  simpl length in *. rewrite IH. lia.
Qed.

Lemma abs_changes_length (ds : list R) :
  length (abs_changes ds) = (length ds - 1)%nat.
Proof.
  induction ds as [|d1 [|d2 r] IH]; try reflexivity.
  change (abs_changes (d1 :: d2 :: r))
    with (Rabs (d2 - d1) :: abs_changes (d2 :: r)).
  simpl length in *. rewrite IH. lia.
Qed.

Lemma Rsum_cons (v : R) (l : list R) : Rsum (v :: l) = v + Rsum l.
Proof. reflexivity. Qed.

Lemma for_range_S (St : Type) (body : St -> nat -> option St)
    (i k : nat) (s : St) :
  for_range body i (S k) s
  = match body s i with
    | Some s' => for_range body (S i) k s'
    | None => None
    end.
Proof. reflexivity. Qed.

Section Loops.

Variable pts : list DrawingPoint.
Variable p : SpiralParams.

Lemma variation_step_first (p1 p0 : DrawingPoint) (v d : R) :
  nth_error pts 0 = Some p1 -> nth_error pts 1 = Some p0 ->
  variation_step pts (v, d) 1 = Some (v, d + distance p1 p0).
Proof.
  intros E1 E0. unfold variation_step. cbn [Nat.sub].
  rewrite E0, E1. reflexivity.
Qed.

Lemma variation_step_next (i : nat) (p2 p1 p0 : DrawingPoint) (v d : R) :
  (2 <= i)%nat ->
  nth_error pts (i - 2) = Some p2 -> nth_error pts (i - 1) = Some p1 ->
  nth_error pts i = Some p0 ->
  variation_step pts (v, d) i
  = Some (v + Rabs (distance p1 p0 - distance p2 p1), d + distance p1 p0).
Proof.
  intros Hi E2 E1 E0. unfold variation_step.
  rewrite E0, E1, E2.
  replace (1 <? i)%nat with true by (symmetry; apply Nat.ltb_lt; lia).
  reflexivity.
Qed.

Lemma deviation_step_at (i : nat) (pt : DrawingPoint) (acc : R) :
  nth_error pts i = Some pt ->
  deviation_step pts p acc i = Some (acc + deviation_term p pt).
Proof. intros E. unfold deviation_step. rewrite E. reflexivity. Qed.

(** The first loop from index [i] on, [i] at least 2: what remains to be
    added are the changes and the steps of the samples from [i - 2] on. *)
Lemma variation_loop_from (count i : nat) (v d : R) :
  (2 <= i)%nat -> (i + count = length pts)%nat ->
  for_range (variation_step pts) i count (v, d)
  = Some (v + Rsum (abs_changes (segment_lengths (skipn (i - 2) pts))),
          d + Rsum (segment_lengths (skipn (i - 1) pts))).
Proof.
  revert i v d; induction count as [|k IH]; intros i v d Hi Hn.
  - simpl. rewrite abs_changes_short, segment_lengths_short
      by (rewrite length_skipn; lia).
    simpl. now rewrite !Rplus_0_r.
  - destruct (nth_error_in_range _ pts i) as [p0 E0]; [lia|].
    destruct (nth_error_in_range _ pts (i - 1)) as [p1 E1]; [lia|].
    destruct (nth_error_in_range _ pts (i - 2)) as [p2 E2]; [lia|].
    rewrite for_range_S.
    rewrite (variation_step_next i p2 p1 p0) by assumption.
    rewrite IH by lia.
    replace (S i - 2)%nat with (i - 1)%nat by lia.
    replace (S i - 1)%nat with i by lia.
    rewrite (skipn_cons_nth_error _ pts (i - 2) p2 E2).
    replace (S (i - 2)) with (i - 1)%nat by lia.
    rewrite (skipn_cons_nth_error _ pts (i - 1) p1 E1).
    replace (S (i - 1)) with i by lia.
    rewrite (skipn_cons_nth_error _ pts i p0 E0).
    cbn [segment_lengths abs_changes Rsum fold_right].
    f_equal. f_equal; ring.
Qed.

(** The second loop from index [i] on adds the terms of the next [count]
    samples. *)
Lemma deviation_loop_from (count i : nat) (acc : R) :
  (i + count <= length pts)%nat ->
  for_range (deviation_step pts p) i count acc
  = Some (acc + Rsum (map (deviation_term p) (firstn count (skipn i pts)))).
Proof.
  revert i acc; induction count as [|k IH]; intros i acc Hn.
  - simpl. now rewrite Rplus_0_r.
  - destruct (nth_error_in_range _ pts i) as [pt E]; [lia|].
    rewrite for_range_S, (deviation_step_at i pt) by assumption.
    rewrite IH by lia.
    rewrite (skipn_cons_nth_error _ pts i pt E).
    rewrite firstn_cons, map_cons, Rsum_cons.
    f_equal. ring.
Qed.

End Loops.

Lemma variation_loop_closed (pts : list DrawingPoint) :
  variation_loop pts
  = Some (Rsum (abs_changes (segment_lengths pts)),
          Rsum (segment_lengths pts)).
Proof.
  unfold variation_loop.
  destruct pts as [|p [|q r]]; try reflexivity.
  replace (length (p :: q :: r) - 1)%nat with (S (length r))
    by (simpl; lia).
  rewrite for_range_S.
  rewrite (variation_step_first _ p q) by reflexivity.
  rewrite variation_loop_from by (simpl; lia).
  cbn [Nat.sub skipn segment_lengths Rsum fold_right].
  f_equal. f_equal; ring.
Qed.

Lemma firstn_min_length (A : Type) (l : list A) (n : nat) :
  firstn (Nat.min n (length l)) l = firstn n l.
Proof.
  destruct (Nat.le_ge_cases n (length l)) as [H|H].
  - now rewrite Nat.min_l.
  - rewrite Nat.min_r by assumption.
    now rewrite firstn_all, firstn_all2.
Qed.

Lemma deviation_loop_closed (pts : list DrawingPoint) (p : SpiralParams) :
  deviation_loop pts p
  = Some (Rsum (map (deviation_term p) (firstn 100 pts))).
Proof.
  unfold deviation_loop.
  rewrite deviation_loop_from by (rewrite Nat.add_0_l; apply Nat.le_min_r).
  rewrite firstn_min_length. simpl skipn. now rewrite Rplus_0_l.
Qed.

Lemma avgVariation_closed (pts : list DrawingPoint) :
  avgVariation pts
  = Some (Rsum (abs_changes (segment_lengths pts))
          / Rmax 1 (INR (length pts) - 2)).
Proof. unfold avgVariation. now rewrite variation_loop_closed. Qed.

Lemma avgDistance_closed (pts : list DrawingPoint) :
  avgDistance pts
  = Some (Rsum (segment_lengths pts) / Rmax 1 (INR (length pts) - 1)).
Proof. unfold avgDistance. now rewrite variation_loop_closed. Qed.

Lemma deviation_closed (pts : list DrawingPoint) (p : SpiralParams) :
  deviation pts p
  = Some (Rsum (map (deviation_term p) (firstn 100 pts))
          / Rmin 100 (INR (length pts))).
Proof. unfold deviation. now rewrite deviation_loop_closed. Qed.

Lemma totalTime_total (pts : list DrawingPoint) :
  exists time, totalTime pts = Some time.
Proof.
  unfold totalTime. destruct (0 <? length pts)%nat eqn:E.
  - apply Nat.ltb_lt in E.
    destruct (nth_error_in_range _ pts (length pts - 1)) as [p Hp]; [lia|].
    rewrite Hp. now eexists.
  - now eexists.
Qed.

(** ** A run on a non-empty trace completes *)

Lemma scoreTrace_closed (info : QuestionnaireData)
    (pts : list DrawingPoint) (p : SpiralParams) (random now : R) :
  exists time av ad dev,
    totalTime pts = Some time /\ avgVariation pts = Some av /\
    avgDistance pts = Some ad /\ deviation pts p = Some dev /\
    scoreTrace info pts p random now
    = Some {| spiral_id := now;
              severity_score := finalScore info av dev random;
              classification := "tremor_score_demo";
              features :=
                {| total_points := length pts;
                   total_time_ms := time;
                   average_variation := toFixed2 av;
                   average_distance := toFixed2 ad;
                   spiral_deviation := toFixed2 dev |} |}.
Proof.
  destruct (totalTime_total pts) as [time Ht].
  exists time. eexists. eexists. eexists.
  split; [exact Ht|].
  split; [apply avgVariation_closed|].
  split; [apply avgDistance_closed|].
  split; [apply deviation_closed|].
  unfold scoreTrace.
  rewrite Ht, avgVariation_closed, avgDistance_closed, deviation_closed.
  reflexivity.
Qed.

Lemma calculateDemoScore_completes (info : QuestionnaireData)
    (pts : list DrawingPoint) (p : SpiralParams) (random now : R) :
  pts <> [] ->
  exists time av ad dev,
    totalTime pts = Some time /\ avgVariation pts = Some av /\
    avgDistance pts = Some ad /\ deviation pts p = Some dev /\
    calculateDemoScore (Some info) pts (Some p) random now
    = Completed {| spiral_id := now;
                   severity_score := finalScore info av dev random;
                   classification := "tremor_score_demo";
                   features :=
                     {| total_points := length pts;
                        total_time_ms := time;
                        average_variation := toFixed2 av;
                        average_distance := toFixed2 ad;
                        spiral_deviation := toFixed2 dev |} |}.
Proof.
  intros Hne.
  destruct (scoreTrace_closed info pts p random now)
    as (time & av & ad & dev & Ht & Hv & Hd & Hdev & Hs).
  exists time, av, ad, dev. repeat (split; [assumption|]).
  unfold calculateDemoScore.
  destruct pts as [|q r]; [contradiction|].
  cbn [length Nat.eqb]. now rewrite Hs.
Qed.

(** Only a run with both props present and a non-empty trace completes. *)
Lemma calculateDemoScore_Completed_inv (pinfo : option QuestionnaireData)
    (pts : list DrawingPoint) (pparams : option SpiralParams)
    (random now : R) (sd : ScoreData) :
  calculateDemoScore pinfo pts pparams random now = Completed sd ->
  exists info p, pinfo = Some info /\ pparams = Some p /\ pts <> [].
Proof.
  unfold calculateDemoScore.
  destruct pinfo as [info|]; [|discriminate].
  destruct pparams as [p|]; [|discriminate].
  destruct pts as [|q r]; [discriminate|].
  intros _. exists info, p. repeat split; discriminate.
Qed.

Lemma finalScore_bounds (info : QuestionnaireData) (av dev random : R) :
  0 <= finalScore info av dev random <= 3.
Proof.
  unfold finalScore. split.
  - apply Rmax_l.
  - apply Rmax_lub; [lra|apply Rmin_l].
Qed.

(** C6. Every completed run carries a severity score in the closed interval
    from 0 to 3: the score is clamped before it is reported and classified.
    Every run on a non-empty trace with both props present completes, so
    the bound holds for each of them. *)
Theorem severity_score_clamped (pinfo : option QuestionnaireData)
    (pts : list DrawingPoint) (pparams : option SpiralParams)
    (random now : R) :
  (forall sd,
     calculateDemoScore pinfo pts pparams random now = Completed sd ->
     0 <= severity_score sd <= 3) /\
  (forall info p,
     pinfo = Some info -> pparams = Some p -> pts <> [] ->
     exists sd,
       calculateDemoScore pinfo pts pparams random now = Completed sd /\
       0 <= severity_score sd <= 3).
Proof.
  assert (Hrun : forall info p, pts <> [] ->
            exists sd,
              calculateDemoScore (Some info) pts (Some p) random now
              = Completed sd /\
              0 <= severity_score sd <= 3).
  { intros info p Hne.
    destruct (calculateDemoScore_completes info pts p random now Hne)
      as (time & av & ad & dev & _ & _ & _ & _ & Hc).
    eexists. split; [exact Hc|]. cbn [severity_score].
    apply finalScore_bounds. }
  split.
  - intros sd Hsd.
    destruct (calculateDemoScore_Completed_inv _ _ _ _ _ _ Hsd)
      as (info & p & -> & -> & Hne).
    destruct (Hrun info p Hne) as (sd' & Hsd' & Hb).
    rewrite Hsd in Hsd'. now inversion Hsd'.
  - intros info p -> -> Hne. now apply Hrun.
Qed.

Lemma severity_score_clamped_witness :
  exists sd,
    calculateDemoScore (Some info_yes) halting_trace (Some canvas_params)
                       (9 / 10) 1700000000000
    = Completed sd /\
    0 <= severity_score sd <= 3.
Proof.
  apply (proj2 (severity_score_clamped (Some info_yes) halting_trace
                  (Some canvas_params) (9 / 10) 1700000000000)
               info_yes canvas_params).
  - reflexivity.
  - reflexivity.
  - discriminate.
Defined.

(** ** Path smoothness *)

(** The entries of [abs_changes (segment_lengths pts)] are the terms of the
    sum: entry [k] compares the step into sample [k + 2] with the step into
    sample [k + 1]. *)
Lemma abs_changes_nth (pts : list DrawingPoint) (k : nat)
    (p0 p1 p2 : DrawingPoint) :
  nth_error pts k = Some p0 -> nth_error pts (k + 1) = Some p1 ->
  nth_error pts (k + 2) = Some p2 ->
  nth_error (abs_changes (segment_lengths pts)) k
  = Some (Rabs (distance p1 p2 - distance p0 p1)).
Proof.
  revert k; induction pts as [|q0 [|q1 [|q2 r]] IH]; intros k E0 E1 E2.
  - destruct k; discriminate.
  - destruct k as [|k]; simpl in E1; [discriminate|destruct k; discriminate].
  - destruct k as [|[|k]]; simpl in E2; try discriminate.
    destruct k; discriminate.
  - destruct k as [|k].
    + simpl in E0, E1, E2. inversion E0; inversion E1; inversion E2.
      subst. reflexivity.
    + change (abs_changes (segment_lengths (q0 :: q1 :: q2 :: r)))
        with (Rabs (distance q1 q2 - distance q0 q1)
              :: abs_changes (segment_lengths (q1 :: q2 :: r))).
      cbn [nth_error]. apply IH; assumption.
Qed.

Lemma path_smoothness_terms (pts : list DrawingPoint) :
  length (abs_changes (segment_lengths pts)) = (length pts - 2)%nat.
Proof. rewrite abs_changes_length, segment_lengths_length. lia. Qed.

(** C7. For a trace of at least three samples the scorer's average variation
    is the arithmetic mean of the absolute differences between consecutive
    inter-point distances: the sum of the n - 2 terms
    |dist (p_(k+1), p_(k+2)) - dist (p_k, p_(k+1))| divided by n - 2; the
    'Average variation' metric of the run is that value formatted. *)
Theorem avgVariation_is_mean_abs_change (pts : list DrawingPoint) :
  (3 <= length pts)%nat ->
  avgVariation pts = Some (spec_path_smoothness pts) /\
  spec_path_smoothness pts
  = Rsum (abs_changes (segment_lengths pts)) / (INR (length pts) - 2) /\
  length (abs_changes (segment_lengths pts)) = (length pts - 2)%nat /\
  (forall k p0 p1 p2,
     nth_error pts k = Some p0 -> nth_error pts (k + 1) = Some p1 ->
     nth_error pts (k + 2) = Some p2 ->
     nth_error (abs_changes (segment_lengths pts)) k
     = Some (Rabs (distance p1 p2 - distance p0 p1))) /\
  forall info p random now,
  exists sd,
    calculateDemoScore (Some info) pts (Some p) random now = Completed sd /\
    average_variation (features sd) = toFixed2 (spec_path_smoothness pts).
Proof.
  intros Hn.
  assert (Hd : INR (length pts - 2) = INR (length pts) - 2).
  { rewrite minus_INR by lia. simpl. lra. }
  assert (H1 : 1 <= INR (length pts) - 2).
  { rewrite <- Hd. change 1 with (INR 1). apply le_INR. lia. }
  assert (Hs : spec_path_smoothness pts
               = Rsum (abs_changes (segment_lengths pts))
                 / (INR (length pts) - 2)).
  { unfold spec_path_smoothness. now rewrite path_smoothness_terms, Hd. }
  assert (Hv : avgVariation pts = Some (spec_path_smoothness pts)).
  { rewrite avgVariation_closed, Hs. now rewrite Rmax_right by exact H1. }
  split; [exact Hv|]. split; [exact Hs|].
  split; [apply path_smoothness_terms|].
  split; [apply abs_changes_nth|].
  intros info p random now.
  destruct (calculateDemoScore_completes info pts p random now)
    as (time & av & ad & dev & _ & Hav & _ & _ & Hc).
  { destruct pts; [simpl in Hn; lia|discriminate]. }
  eexists. split; [exact Hc|]. cbn [features average_variation].
  rewrite Hv in Hav. now inversion Hav.
Qed.

Lemma avgVariation_is_mean_abs_change_witness :
  avgVariation halting_trace = Some (spec_path_smoothness halting_trace) /\
  spec_path_smoothness halting_trace
  = Rsum (abs_changes (segment_lengths halting_trace))
    / (INR (length halting_trace) - 2) /\
  length (abs_changes (segment_lengths halting_trace))
  = (length halting_trace - 2)%nat /\
  (forall k p0 p1 p2,
     nth_error halting_trace k = Some p0 ->
     nth_error halting_trace (k + 1) = Some p1 ->
     nth_error halting_trace (k + 2) = Some p2 ->
     nth_error (abs_changes (segment_lengths halting_trace)) k
     = Some (Rabs (distance p1 p2 - distance p0 p1))) /\
  forall info p random now,
  exists sd,
    calculateDemoScore (Some info) halting_trace (Some p) random now
    = Completed sd /\
    average_variation (features sd)
    = toFixed2 (spec_path_smoothness halting_trace).
Proof.
  apply avgVariation_is_mean_abs_change. simpl. lia.
Defined.

(** ** Spiral deviation *)

Lemma Rmin_100_long (n : nat) : (100 <= n)%nat -> Rmin 100 (INR n) = 100.
Proof.
  intros H. apply Rmin_left.
  replace 100 with (INR 100) by (rewrite INR_IZR_INZ; reflexivity).
  now apply le_INR.
Qed.

(** C10. The spiral deviation reads only the first min(100, n) samples: two
    traces of at least 100 samples that agree on their first 100 have the
    same deviation and the same 'Spiral deviation' metric, whatever follows
    and whatever the other inputs of the two runs are. *)
Theorem deviation_reads_first_100 (pts1 pts2 : list DrawingPoint)
    (p : SpiralParams) :
  (100 <= length pts1)%nat -> (100 <= length pts2)%nat ->
  firstn 100 pts1 = firstn 100 pts2 ->
  deviation pts1 p
  = Some (Rsum (map (deviation_term p) (firstn 100 pts1)) / 100) /\
  deviation pts1 p = deviation pts2 p /\
  forall info1 info2 random1 random2 now1 now2,
  exists s1 s2,
    calculateDemoScore (Some info1) pts1 (Some p) random1 now1
    = Completed s1 /\
    calculateDemoScore (Some info2) pts2 (Some p) random2 now2
    = Completed s2 /\
    spiral_deviation (features s1) = spiral_deviation (features s2).
Proof.
  intros H1 H2 Hf.
  assert (Hd : deviation pts1 p = deviation pts2 p).
  { rewrite !deviation_closed, Hf, !Rmin_100_long by assumption.
    reflexivity. }
  split; [|split; [exact Hd|]].
  - now rewrite deviation_closed, Rmin_100_long.
  - intros info1 info2 random1 random2 now1 now2.
    destruct (calculateDemoScore_completes info1 pts1 p random1 now1)
      as (? & ? & ? & d1 & _ & _ & _ & Hd1 & Hc1).
    { destruct pts1; [simpl in H1; lia|discriminate]. }
    destruct (calculateDemoScore_completes info2 pts2 p random2 now2)
      as (? & ? & ? & d2 & _ & _ & _ & Hd2 & Hc2).
    { destruct pts2; [simpl in H2; lia|discriminate]. }
    eexists; eexists. split; [exact Hc1|]. split; [exact Hc2|].
    cbn [features spiral_deviation].
    rewrite Hd, Hd2 in Hd1. now inversion Hd1.
Qed.

Lemma long_traces_agree :
  (100 <= length long_trace_1)%nat /\ (100 <= length long_trace_2)%nat /\
  firstn 100 long_trace_1 = firstn 100 long_trace_2.
Proof.
  unfold long_trace_1, long_trace_2.
  rewrite !length_app, !repeat_length.
  split; [lia|split; [lia|reflexivity]].
Defined.

Lemma deviation_reads_first_100_witness :
  deviation long_trace_1 unit_params
  = Some (Rsum (map (deviation_term unit_params) (firstn 100 long_trace_1))
          / 100) /\
  deviation long_trace_1 unit_params = deviation long_trace_2 unit_params /\
  forall info1 info2 random1 random2 now1 now2,
  exists s1 s2,
    calculateDemoScore (Some info1) long_trace_1 (Some unit_params)
                       random1 now1
    = Completed s1 /\
    calculateDemoScore (Some info2) long_trace_2 (Some unit_params)
                       random2 now2
    = Completed s2 /\
    spiral_deviation (features s1) = spiral_deviation (features s2).
Proof.
  apply deviation_reads_first_100; apply long_traces_agree.
Defined.

(** ** Facts about the host functions *)

Lemma atan2_origin (y0 x0 : R) : x0 = 0 -> y0 = 0 -> atan2 y0 x0 = 0.
Proof.
  intros -> ->. unfold atan2.
  repeat (destruct (Rlt_dec _ _)); try lra.
Qed.

Lemma atan2_pos_x_axis (y0 x0 : R) : y0 = 0 -> 0 < x0 -> atan2 y0 x0 = 0.
Proof.
  intros -> H. unfold atan2.
  destruct (Rlt_dec 0 x0); [|lra].
  unfold Rdiv. rewrite Rmult_0_l. apply atan_0.
Qed.

Lemma atan2_neg_x_axis (y0 x0 : R) : y0 = 0 -> x0 < 0 -> atan2 y0 x0 = PI.
Proof.
  intros -> H. unfold atan2.
  destruct (Rlt_dec 0 x0); [lra|].
  destruct (Rlt_dec x0 0); [|lra].
  destruct (Rle_dec 0 0); [|lra].
  unfold Rdiv. rewrite Rmult_0_l, atan_0. lra.
Qed.

Lemma atan2_pos_y_axis (y0 x0 : R) :
  x0 = 0 -> 0 < y0 -> atan2 y0 x0 = PI / 2.
Proof.
  intros -> H. unfold atan2.
  repeat (destruct (Rlt_dec _ _)); try lra.
Qed.

Lemma atan2_neg_y_axis (y0 x0 : R) :
  x0 = 0 -> y0 < 0 -> atan2 y0 x0 = - (PI / 2).
Proof.
  intros -> H. unfold atan2.
  repeat (destruct (Rlt_dec _ _)); try lra.
Qed.

Lemma atan2_diagonal (v : R) : 0 < v -> atan2 v v = PI / 4.
Proof.
  intros H. unfold atan2. destruct (Rlt_dec 0 v); [|lra].
  replace (v / v) with 1 by (field; lra). apply atan_1.
Qed.

(** The angle of a point given in polar form is recovered when it lies in
    (-PI, PI]. *)
Lemma atan2_polar (r theta : R) :
  0 < r -> - PI < theta <= PI ->
  atan2 (r * sin theta) (r * cos theta) = theta.
Proof.
  intros Hr [Hlo Hhi]. pose proof PI_RGT_0 as Hpi.
  assert (Htan : cos theta <> 0 ->
                 (r * sin theta) / (r * cos theta) = tan theta).
  { intros Hc. unfold tan. field. split; lra. }
  destruct (Rlt_dec (- (PI / 2)) theta) as [Hl|Hl];
    [destruct (Rlt_dec theta (PI / 2)) as [Hu|Hu]|].
  - (* right half plane *)
    assert (Hc : 0 < cos theta) by (apply cos_gt_0; lra).
    unfold atan2. destruct (Rlt_dec 0 (r * cos theta)) as [_|N];
      [|exfalso; apply N; apply Rmult_lt_0_compat; assumption].
    rewrite Htan by lra. apply atan_tan. lra.
  - destruct (Req_dec theta (PI / 2)) as [->|Hne].
    + rewrite cos_PI2, sin_PI2. apply atan2_pos_y_axis; lra.
    + (* second quadrant *)
      assert (Hc : cos theta < 0) by (apply cos_lt_0; lra).
      assert (Hs : 0 <= sin theta) by (apply sin_ge_0; lra).
      assert (Hx : r * cos theta < 0) by nra.
      assert (Hy : 0 <= r * sin theta) by nra.
      unfold atan2. destruct (Rlt_dec 0 (r * cos theta)); [lra|].
      destruct (Rlt_dec (r * cos theta) 0); [|lra].
      destruct (Rle_dec 0 (r * sin theta)); [|lra].
      rewrite Htan by lra.
      assert (Hc' : 0 < cos (theta - PI)) by (apply cos_gt_0; lra).
      replace (tan theta) with (tan (theta - PI)).
      * rewrite atan_tan by lra. lra.
      * rewrite <- (Rtrigo_facts.tan_pi_plus (theta - PI)) by lra.
        f_equal. lra.
  - destruct (Req_dec theta (- (PI / 2))) as [->|Hne].
    + rewrite cos_neg, sin_neg, cos_PI2, sin_PI2.
      apply atan2_neg_y_axis; lra.
    + (* third quadrant *)
      assert (Hc : cos theta < 0).
      { rewrite <- cos_neg. apply cos_lt_0; lra. }
      assert (Hs : sin theta < 0) by (apply sin_lt_0_var; lra).
      assert (Hx : r * cos theta < 0) by nra.
      assert (Hy : r * sin theta < 0) by nra.
      unfold atan2. destruct (Rlt_dec 0 (r * cos theta)); [lra|].
      destruct (Rlt_dec (r * cos theta) 0); [|lra].
      destruct (Rle_dec 0 (r * sin theta)); [lra|].
      rewrite Htan by lra.
      rewrite <- (Rtrigo_facts.tan_pi_plus theta) by lra.
      rewrite atan_tan by lra. lra.
Qed.

Lemma sqrt_of_square (s r : R) : 0 <= r -> s = r * r -> sqrt s = r.
Proof. intros Hr ->. now apply sqrt_square. Qed.

Lemma polar_radius (r theta : R) :
  0 <= r -> sqrt ((r * cos theta) ^ 2 + (r * sin theta) ^ 2) = r.
Proof.
  intros Hr. apply sqrt_of_square; [assumption|].
  pose proof (sin2_cos2 theta) as H. unfold Rsqr in H. nra.
Qed.

Lemma Rsum_map_zero (A : Type) (f : A -> R) (l : list A) :
  (forall v, In v l -> f v = 0) -> Rsum (map f l) = 0.
Proof.
  induction l as [|h tl IH]; intros H; [reflexivity|].
  rewrite map_cons, Rsum_cons, (H h), IH; [lra| |now left].
  intros v Hv. apply H. now right.
Qed.

Lemma Rsum_map_nonneg (A : Type) (f : A -> R) (l : list A) :
  (forall v, 0 <= f v) -> 0 <= Rsum (map f l).
Proof.
  intros H. induction l as [|h tl IH]; [simpl; lra|].
  rewrite map_cons, Rsum_cons. specialize (H h). lra.
Qed.

Lemma Rmin_INR (n m : nat) : Rmin (INR n) (INR m) = INR (Nat.min n m).
Proof.
  destruct (Nat.le_ge_cases n m) as [H|H].
  - rewrite Nat.min_l, Rmin_left; auto using le_INR.
  - rewrite Nat.min_r, Rmin_right; auto using le_INR.
Qed.

Lemma Rmin_100_length (pts : list DrawingPoint) :
  Rmin 100 (INR (length pts)) = INR (length (firstn 100 pts)).
Proof.
  rewrite length_firstn, <- Rmin_INR. f_equal.
  rewrite INR_IZR_INZ. reflexivity.
Qed.

Lemma Rmin_100_one : Rmin 100 (INR 1) = 1.
Proof. rewrite Rmin_right; simpl; lra. Qed.

(** ** The reference spiral of the canvas *)

(** Every vertex that [drawReferenceSpiral] strokes lies on the spiral
    [radius = a + b * theta] about the centre of the canvas, at its own
    angle, which runs up to three full turns. *)
Lemma referenceVertex_on_spiral (width height : R) (i : nat) (tm : R) :
  on_spiral (width / 2) (height / 2) (drawReferenceSpiral width height)
            (INR i / steps * totalAngle)
            (mkPoint (fst (referenceVertex width height i))
                     (snd (referenceVertex width height i)) tm).
Proof. split; reflexivity. Qed.

Lemma referenceVertex_start : referenceVertex 400 400 0 = (200, 200).
Proof.
  unfold referenceVertex. cbn [drawReferenceSpiral a b INR].
  f_equal; unfold Rdiv; rewrite !Rmult_0_l, ?Rmult_0_r, ?Rplus_0_l; lra.
Qed.

Lemma canvas_params_a : a canvas_params = 0.
Proof. reflexivity. Qed.

Lemma canvas_params_b : b canvas_params * PI = 70 / 3.
Proof.
  pose proof PI_RGT_0. unfold canvas_params, drawReferenceSpiral, b.
  unfold totalAngle, turns. rewrite Rmin_left by lra. field. lra.
Qed.

(** ** Deviation from the spiral *)

Lemma quarter_turn_trace_on_spiral :
  Forall2 (on_spiral 200 200 canvas_params)
          quarter_turn_angles quarter_turn_trace.
Proof.
  pose proof canvas_params_b as Hb. pose proof PI_RGT_0.
  unfold quarter_turn_angles, quarter_turn_trace.
  repeat constructor; cbn [x y]; rewrite canvas_params_a;
    rewrite ?cos_0, ?sin_0, ?cos_PI2, ?sin_PI2, ?cos_PI, ?sin_PI,
            ?cos_3PI2, ?sin_3PI2, ?cos_2PI, ?sin_2PI; nra.
Qed.

Lemma spec_shortest_delta_id (d : R) :
  - PI < d <= PI -> spec_shortest_delta d = d.
Proof.
  intros H. unfold spec_shortest_delta.
  destruct (Rlt_dec PI d); [lra|]. destruct (Rle_dec d (- PI)); lra.
Qed.

Lemma spec_shortest_delta_up (d : R) :
  d <= - PI -> spec_shortest_delta d = d + 2 * PI.
Proof.
  intros H. pose proof PI_RGT_0. unfold spec_shortest_delta.
  destruct (Rlt_dec PI d); [lra|]. destruct (Rle_dec d (- PI)); lra.
Qed.

Lemma quarter_turn_raw_angles :
  map (spec_raw_angle 200 200) quarter_turn_trace
  = [0; PI / 2; PI; - (PI / 2); 0].
Proof.
  unfold quarter_turn_trace, spec_raw_angle. cbn [map x y].
  rewrite (atan2_origin (200 - 200) (200 - 200)) by lra.
  rewrite (atan2_pos_y_axis (200 + 35 / 3 - 200) (200 - 200)) by lra.
  rewrite (atan2_neg_x_axis (200 - 200) (200 - 70 / 3 - 200)) by lra.
  rewrite (atan2_neg_y_axis (200 - 35 - 200) (200 - 200)) by lra.
  rewrite (atan2_pos_x_axis (200 - 200) (200 + 140 / 3 - 200)) by lra.
  reflexivity.
Qed.

Lemma quarter_turn_unwrapped :
  spec_unwrap [0; PI / 2; PI; - (PI / 2); 0] = quarter_turn_angles.
Proof.
  pose proof PI_RGT_0. unfold quarter_turn_angles.
  cbn [spec_unwrap spec_unwrap_from].
  rewrite (spec_shortest_delta_id (PI / 2 - 0)) by lra.
  rewrite (spec_shortest_delta_id (PI - PI / 2)) by lra.
  rewrite (spec_shortest_delta_up (- (PI / 2) - PI)) by lra.
  rewrite (spec_shortest_delta_id (0 - - (PI / 2))) by lra.
  repeat (f_equal; try lra).
Qed.

Lemma quarter_turn_spec_deviation :
  spec_radial_deviation 200 200 canvas_params quarter_turn_trace = 0.
Proof.
  pose proof canvas_params_b as Hb. pose proof PI_RGT_0.
  unfold spec_radial_deviation.
  rewrite quarter_turn_raw_angles, quarter_turn_unwrapped.
  unfold quarter_turn_trace, quarter_turn_angles, spec_radius.
  cbn [combine map fst snd x y]. rewrite canvas_params_a.
  rewrite (sqrt_of_square ((200 - 200) ^ 2 + (200 - 200) ^ 2) 0)
    by lra.
  rewrite (sqrt_of_square ((200 - 200) ^ 2 + (200 + 35 / 3 - 200) ^ 2)
                          (35 / 3)) by lra.
  rewrite (sqrt_of_square ((200 - 70 / 3 - 200) ^ 2 + (200 - 200) ^ 2)
                          (70 / 3)) by lra.
  rewrite (sqrt_of_square ((200 - 200) ^ 2 + (200 - 35 - 200) ^ 2) 35)
    by lra.
  rewrite (sqrt_of_square ((200 + 140 / 3 - 200) ^ 2 + (200 - 200) ^ 2)
                          (140 / 3)) by lra.
  replace (0 - (0 + b canvas_params * 0)) with 0 by lra.
  replace (35 / 3 - (0 + b canvas_params * (PI / 2))) with 0 by lra.
  replace (70 / 3 - (0 + b canvas_params * PI)) with 0 by lra.
  replace (35 - (0 + b canvas_params * (3 * (PI / 2)))) with 0 by lra.
  replace (140 / 3 - (0 + b canvas_params * (2 * PI))) with 0 by lra.
  unfold Rsum. cbn [fold_right]. rewrite Rabs_R0.
  unfold Rdiv. rewrite !Rplus_0_l. apply Rmult_0_l.
Qed.

Lemma quarter_turn_demo_deviation :
  exists d, deviation quarter_turn_trace canvas_params = Some d /\ 38 < d.
Proof.
  pose proof canvas_params_b as Hb. pose proof PI_RGT_0.
  rewrite deviation_closed. eexists. split; [reflexivity|].
  unfold quarter_turn_trace at 2. cbn [length].
  replace (Rmin 100 (INR 5)) with 5
    by (rewrite Rmin_right; simpl; lra).
  unfold quarter_turn_trace. cbn [firstn].
  rewrite map_cons, Rsum_cons.
  set (rest := Rsum _).
  assert (Hrest : 0 <= rest).
  { apply Rsum_map_nonneg. intros v. apply Rabs_pos. }
  unfold deviation_term. cbn [x y]. rewrite canvas_params_a.
  rewrite (atan2_diagonal (200 - 0)) by lra.
  assert (Hs : 200 <= sqrt ((200 - 0) ^ 2 + (200 - 0) ^ 2)).
  { rewrite <- (sqrt_square 200) at 1 by lra. apply sqrt_le_1; lra. }
  set (s := sqrt _) in *.
  rewrite Rabs_right by lra. lra.
Qed.

Lemma full_turn_trace_on_spiral :
  Forall2 (on_spiral 0 0 unit_params) quarter_turn_angles full_turn_trace.
Proof.
  unfold quarter_turn_angles, full_turn_trace.
  repeat constructor; cbn [x y a b unit_params];
    rewrite ?cos_0, ?sin_0, ?cos_PI2, ?sin_PI2, ?cos_PI, ?sin_PI,
            ?cos_3PI2, ?sin_3PI2, ?cos_2PI, ?sin_2PI; lra.
Qed.

Lemma full_turn_raw_angles :
  map (spec_raw_angle 0 0) full_turn_trace
  = [0; PI / 2; PI; - (PI / 2); 0].
Proof.
  pose proof PI_RGT_0.
  unfold full_turn_trace, spec_raw_angle. cbn [map x y].
  rewrite (atan2_origin (0 - 0) (0 - 0)) by lra.
  rewrite (atan2_pos_y_axis (PI / 2 - 0) (0 - 0)) by lra.
  rewrite (atan2_neg_x_axis (0 - 0) (- PI - 0)) by lra.
  rewrite (atan2_neg_y_axis (- (3 * (PI / 2)) - 0) (0 - 0)) by lra.
  rewrite (atan2_pos_x_axis (0 - 0) (2 * PI - 0)) by lra.
  reflexivity.
Qed.

Ltac full_turn_radii :=
  rewrite (sqrt_of_square ((0 - 0) ^ 2 + (0 - 0) ^ 2) 0) by lra;
  rewrite (sqrt_of_square ((0 - 0) ^ 2 + (PI / 2 - 0) ^ 2) (PI / 2))
    by lra;
  rewrite (sqrt_of_square ((- PI - 0) ^ 2 + (0 - 0) ^ 2) PI) by lra;
  rewrite (sqrt_of_square ((0 - 0) ^ 2 + (- (3 * (PI / 2)) - 0) ^ 2)
                          (3 * (PI / 2))) by lra;
  rewrite (sqrt_of_square ((2 * PI - 0) ^ 2 + (0 - 0) ^ 2) (2 * PI)) by lra.

Lemma full_turn_spec_deviation :
  spec_radial_deviation 0 0 unit_params full_turn_trace = 0.
Proof.
  pose proof PI_RGT_0.
  unfold spec_radial_deviation.
  rewrite full_turn_raw_angles, quarter_turn_unwrapped.
  unfold full_turn_trace, quarter_turn_angles, spec_radius.
  cbn [combine map fst snd x y a b unit_params].
  full_turn_radii.
  replace (0 - (0 + 1 * 0)) with 0 by lra.
  replace (PI / 2 - (0 + 1 * (PI / 2))) with 0 by lra.
  replace (PI - (0 + 1 * PI)) with 0 by lra.
  replace (3 * (PI / 2) - (0 + 1 * (3 * (PI / 2)))) with 0 by lra.
  replace (2 * PI - (0 + 1 * (2 * PI))) with 0 by lra.
  unfold Rsum. cbn [fold_right]. rewrite Rabs_R0.
  unfold Rdiv. rewrite !Rplus_0_l. apply Rmult_0_l.
Qed.

Lemma full_turn_demo_deviation :
  deviation full_turn_trace unit_params = Some (4 * PI / 5).
Proof.
  pose proof PI_RGT_0.
  rewrite deviation_closed.
  unfold full_turn_trace.
  cbn [length firstn map]. unfold deviation_term.
  cbn [x y a b unit_params].
  full_turn_radii.
  rewrite (atan2_origin (0 - 0) (0 - 0)) by lra.
  rewrite (atan2_pos_y_axis (PI / 2 - 0) (0 - 0)) by lra.
  rewrite (atan2_neg_x_axis (0 - 0) (- PI - 0)) by lra.
  rewrite (atan2_neg_y_axis (- (3 * (PI / 2)) - 0) (0 - 0)) by lra.
  rewrite (atan2_pos_x_axis (0 - 0) (2 * PI - 0)) by lra.
  replace (Rmin 100 (INR 5)) with 5 by (rewrite Rmin_right; simpl; lra).
  replace (0 - (0 + 1 * 0)) with 0 by lra.
  replace (PI / 2 - (0 + 1 * (PI / 2))) with 0 by lra.
  replace (PI - (0 + 1 * PI)) with 0 by lra.
  replace (3 * (PI / 2) - (0 + 1 * - (PI / 2))) with (2 * PI) by lra.
  replace (2 * PI - (0 + 1 * 0)) with (2 * PI) by lra.
  unfold Rsum. cbn [fold_right].
  rewrite Rabs_R0, Rabs_right by lra. f_equal. lra.
Qed.

Lemma centre_tap_session :
  handleDone (session (page_at 1000) centre_tap_events)
  = OnComplete centre_tap (a canvas_params) (b canvas_params).
Proof.
  unfold centre_tap_events, session, centre_tap.
  cbn [fold_left handleCanvasEvent mount page_at canvasRef demo_canvas
       has_context clock startDrawing getCoordinates stopDrawing
       startTimeRef points handleDone spiralParamsRef length Nat.eqb
       rect_left rect_top rect_width rect_height isDrawing].
  unfold canvas_params.
  replace (220 - 20) with 200 by lra.
  replace (280 - 80) with 200 by lra.
  replace (1500 - 1000) with 500 by lra.
  reflexivity.
Qed.

Lemma centre_tap_on_spiral :
  Forall2 (on_spiral 200 200 canvas_params) [0] centre_tap.
Proof.
  unfold centre_tap. repeat constructor; cbn [x y];
    rewrite canvas_params_a; lra.
Qed.

Lemma centre_tap_spec_deviation :
  spec_radial_deviation 200 200 canvas_params centre_tap = 0.
Proof.
  unfold spec_radial_deviation, centre_tap, spec_raw_angle, spec_radius.
  cbn [map x y spec_unwrap spec_unwrap_from combine fst snd length INR].
  rewrite (atan2_origin (200 - 200) (200 - 200)) by lra.
  rewrite (sqrt_of_square ((200 - 200) ^ 2 + (200 - 200) ^ 2) 0) by lra.
  rewrite canvas_params_a.
  replace (0 - (0 + b canvas_params * 0)) with 0 by lra.
  unfold Rsum. cbn [fold_right]. rewrite Rabs_R0. lra.
Qed.

Lemma centre_tap_demo_deviation :
  exists d,
    deviation centre_tap canvas_params = Some d /\
    276 < d < 278 /\ deviationScore d = 2.
Proof.
  pose proof canvas_params_b as Hb. pose proof PI_RGT_0.
  rewrite deviation_closed. eexists. split; [reflexivity|].
  unfold centre_tap. cbn [length firstn map].
  rewrite Rmin_100_one.
  unfold Rsum. cbn [fold_right]. unfold deviation_term. cbn [x y].
  rewrite canvas_params_a.
  rewrite (atan2_diagonal (200 - 0)) by lra.
  assert (Hlo : 282 <= sqrt ((200 - 0) ^ 2 + (200 - 0) ^ 2)).
  { rewrite <- (sqrt_square 282) at 1 by lra. apply sqrt_le_1; lra. }
  assert (Hhi : sqrt ((200 - 0) ^ 2 + (200 - 0) ^ 2) <= 283).
  { rewrite <- (sqrt_square 283) at 1 by lra. apply sqrt_le_1; lra. }
  set (s := sqrt _) in *.
  rewrite Rabs_right by lra.
  split; [lra|]. unfold deviationScore. apply Rmin_right. lra.
Qed.

(** C4. The scorer's deviation is not the deviation from the ideal spiral
    that its comment announces and that [drawReferenceSpiral] draws about
    the centre of the canvas.  On a 400 by 400 canvas a press at the centre
    followed by Done hands over the single sample (200, 200) with the
    parameters of the reference spiral.  That sample is vertex 0 of the
    reference spiral and the mean of |radius - (a + b * theta)| about the
    centre is 0 on it; the scorer measures from [(a, a)], the corner
    (0, 0) of the canvas, and gives it a deviation between 276 and 278,
    which caps the deviation score at 2.  Five samples a quarter turn apart
    on the reference spiral likewise have mean 0 and a scorer's deviation
    above 38.  And where the point the scorer measures from is the centre
    of the spiral ([a = 0], spiral [radius = theta] about the origin), five
    samples a quarter turn apart have mean 0 at the unwrapped angle and a
    scorer's deviation of 4 PI / 5, because [Math.atan2] has wrapped on the
    last two. *)
Theorem deviation_misses_the_reference_spiral :
  (handleDone (session (page_at 1000) centre_tap_events)
   = OnComplete centre_tap (a canvas_params) (b canvas_params) /\
   referenceVertex 400 400 0 = (200, 200) /\
   Forall2 (on_spiral 200 200 canvas_params) [0] centre_tap /\
   spec_radial_deviation 200 200 canvas_params centre_tap = 0 /\
   exists d,
     deviation centre_tap canvas_params = Some d /\
     276 < d < 278 /\ deviationScore d = 2) /\
  (Forall2 (on_spiral 200 200 canvas_params)
           quarter_turn_angles quarter_turn_trace /\
   spec_radial_deviation 200 200 canvas_params quarter_turn_trace = 0 /\
   exists d, deviation quarter_turn_trace canvas_params = Some d /\ 38 < d) /\
  (Forall2 (on_spiral 0 0 unit_params) quarter_turn_angles full_turn_trace /\
   spec_radial_deviation 0 0 unit_params full_turn_trace = 0 /\
   deviation full_turn_trace unit_params = Some (4 * PI / 5) /\
   0 < 4 * PI / 5).
Proof.
  pose proof PI_RGT_0 as Hpi. split; [|split].
  - split; [exact centre_tap_session|].
    split; [exact referenceVertex_start|].
    split; [exact centre_tap_on_spiral|].
    split; [exact centre_tap_spec_deviation|].
    exact centre_tap_demo_deviation.
  - split; [exact quarter_turn_trace_on_spiral|].
    split; [exact quarter_turn_spec_deviation|].
    exact quarter_turn_demo_deviation.
  - split; [exact full_turn_trace_on_spiral|].
    split; [exact full_turn_spec_deviation|].
    split; [exact full_turn_demo_deviation|lra].
Qed.

(** ** The score as a function of the two metrics *)

Lemma finalScore_monotone (info : QuestionnaireData) (av d1 d2 random : R) :
  d1 <= d2 -> finalScore info av d1 random <= finalScore info av d2 random.
Proof.
  intros H.
  assert (Hd : deviationScore d1 <= deviationScore d2).
  { unfold deviationScore. apply Rle_min_compat_r. lra. }
  unfold finalScore, preClampScore, adjustedScore, baseScore.
  apply Rle_max_compat_l, Rle_min_compat_l.
  destruct (String.eqb _ _); lra.
Qed.

Lemma preClampScore_yes_no (info_y info_n : QuestionnaireData)
    (av dev random : R) :
  hasMovementDisorder info_y = "yes"%string ->
  hasMovementDisorder info_n = "no"%string ->
  preClampScore info_y av dev random
  = preClampScore info_n av dev random + 3 / 10.
Proof.
  intros Hy Hn. unfold preClampScore, adjustedScore.
  rewrite Hy, Hn. cbn [String.eqb Ascii.eqb Bool.eqb]. simpl. lra.
Qed.

(** With weight 1 on each, the weighted sum of the two normalised metrics
    over the sum of absolute weights is their mean, the scorer's
    [baseScore]. *)
Lemma demo_weighted_mean (av dev : R) :
  spec_severity_score demo_weights (demo_z_scores av dev)
  = baseScore av dev.
Proof.
  unfold spec_severity_score, demo_z_scores, baseScore.
  cbn [map fst snd Rsum fold_right].
  change (spec_weight demo_weights "path_smoothness") with 1.
  change (spec_weight demo_weights "radial_deviation") with 1.
  rewrite Rabs_R1. field.
Qed.

(** ** Runs on concrete traces *)

Lemma origin_trace_avgVariation : avgVariation origin_trace = Some 0.
Proof.
  rewrite avgVariation_closed. unfold origin_trace.
  cbn [segment_lengths abs_changes Rsum fold_right].
  f_equal. unfold Rdiv. apply Rmult_0_l.
Qed.

Lemma offset_trace_avgVariation : avgVariation offset_trace = Some 0.
Proof.
  rewrite avgVariation_closed. unfold offset_trace.
  cbn [segment_lengths abs_changes Rsum fold_right].
  f_equal. unfold Rdiv. apply Rmult_0_l.
Qed.

Lemma origin_trace_deviation : deviation origin_trace unit_params = Some 0.
Proof.
  rewrite deviation_closed. unfold origin_trace.
  cbn [firstn map length Rsum fold_right]. rewrite Rmin_100_one.
  unfold deviation_term, unit_params. cbn [x y a b].
  rewrite (atan2_origin (0 - 0) (0 - 0)) by lra.
  rewrite (sqrt_of_square ((0 - 0) ^ 2 + (0 - 0) ^ 2) 0) by lra.
  replace (0 - (0 + 1 * 0)) with 0 by lra. rewrite Rabs_R0.
  f_equal. lra.
Qed.

Lemma offset_trace_deviation : deviation offset_trace unit_params = Some 3.
Proof.
  rewrite deviation_closed. unfold offset_trace.
  cbn [firstn map length Rsum fold_right]. rewrite Rmin_100_one.
  unfold deviation_term, unit_params. cbn [x y a b].
  rewrite (atan2_pos_x_axis (0 - 0) (3 - 0)) by lra.
  rewrite (sqrt_of_square ((3 - 0) ^ 2 + (0 - 0) ^ 2) 3) by lra.
  replace (3 - (0 + 1 * 0)) with 3 by lra.
  rewrite Rabs_right by lra. f_equal. lra.
Qed.

Ltac unfold_score :=
  unfold finalScore, preClampScore, adjustedScore, baseScore,
    smoothnessScore, deviationScore, randomFactor;
  cbn [hasMovementDisorder info_no info_yes String.eqb Ascii.eqb Bool.eqb];
  unfold Rmin, Rmax; repeat (destruct (Rle_dec _ _)); try lra.

Lemma finalScore_origin_no : finalScore info_no 0 0 (1 / 2) = 0.
Proof. unfold_score. Qed.

Lemma finalScore_origin_yes : finalScore info_yes 0 0 (1 / 2) = 3 / 10.
Proof. unfold_score. Qed.

Lemma finalScore_origin_high_draw : finalScore info_no 0 0 (9 / 10) = 4 / 25.
Proof. unfold_score. Qed.

(** The run on [origin_trace] with the parameters [a = 0], [b = 1]. *)
Lemma origin_run (info : QuestionnaireData) (random now : R) :
  exists sd,
    calculateDemoScore (Some info) origin_trace (Some unit_params) random now
    = Completed sd /\
    severity_score sd = finalScore info 0 0 random /\
    spiral_id sd = now.
Proof.
  destruct (calculateDemoScore_completes info origin_trace unit_params
              random now) as (? & av & ? & dev & _ & Ha & _ & Hd & Hc).
  { discriminate. }
  rewrite origin_trace_avgVariation in Ha.
  rewrite origin_trace_deviation in Hd.
  inversion Ha; inversion Hd; subst.
  eexists. split; [exact Hc|]. split; reflexivity.
Qed.

Lemma halting_trace_steps :
  segment_lengths halting_trace = [5; 0].
Proof.
  unfold halting_trace. cbn [segment_lengths]. unfold distance. cbn [x y].
  rewrite (sqrt_of_square ((3 - 0) * (3 - 0) + (4 - 0) * (4 - 0)) 5) by lra.
  rewrite (sqrt_of_square ((3 - 3) * (3 - 3) + (4 - 4) * (4 - 4)) 0) by lra.
  reflexivity.
Qed.

Lemma halting_trace_avgVariation : avgVariation halting_trace = Some 5.
Proof.
  rewrite avgVariation_closed, halting_trace_steps.
  cbn [abs_changes Rsum fold_right halting_trace length].
  replace (INR 3 - 2) with 1 by (simpl; lra).
  rewrite Rmax_left by lra.
  rewrite (Rabs_left (0 - 5)) by lra.
  f_equal. lra.
Qed.

(** The report's smoothness label is a separate computation: it divides the
    sum by the number of samples, not by the number of terms, and rates 5 / 3
    on [halting_trace], where the scorer's average variation is 5. *)
Lemma halting_trace_calculateSmoothness :
  calculateSmoothness_variations halting_trace = Some 5 /\
  calculateSmoothness halting_trace = Some "Excellent"%string.
Proof.
  assert (H : calculateSmoothness_variations halting_trace = Some 5).
  { unfold calculateSmoothness_variations, halting_trace.
    cbn [length Nat.sub]. rewrite for_range_S. cbn [for_range].
    unfold calculateSmoothness_step. cbn [nth_error Nat.sub x y].
    rewrite (sqrt_of_square ((3 - 0) * (3 - 0) + (4 - 0) * (4 - 0)) 5)
      by lra.
    rewrite (sqrt_of_square ((3 - 3) * (3 - 3) + (4 - 4) * (4 - 4)) 0)
      by lra.
    destruct (Rlt_dec 0 5); [|lra].
    rewrite (Rabs_left (0 - 5)) by lra. f_equal. lra. }
  split; [exact H|].
  unfold calculateSmoothness. rewrite H.
  unfold halting_trace at 1. cbn [length Nat.ltb Nat.leb].
  unfold halting_trace. cbn [length].
  replace (INR 3) with 3 by (simpl; lra).
  destruct (Rlt_dec (5 / 3) 2); [reflexivity|lra].
Qed.

(** ** Monotonicity, questionnaire and randomness *)

(** C8. Of two runs that differ only in the trace, on traces with the same
    average variation, the one whose spiral deviation is larger or equal has
    the larger or equal severity score, through the score formula and the
    clamp; questionnaire, random draw and clock are the same in both. *)
Theorem severity_score_monotone_in_deviation (info : QuestionnaireData)
    (p : SpiralParams) (random now : R) (pts1 pts2 : list DrawingPoint)
    (av d1 d2 : R) :
  pts1 <> [] -> pts2 <> [] ->
  avgVariation pts1 = Some av -> avgVariation pts2 = Some av ->
  deviation pts1 p = Some d1 -> deviation pts2 p = Some d2 ->
  d1 <= d2 ->
  exists s1 s2,
    calculateDemoScore (Some info) pts1 (Some p) random now = Completed s1 /\
    calculateDemoScore (Some info) pts2 (Some p) random now = Completed s2 /\
    severity_score s1 = finalScore info av d1 random /\
    severity_score s2 = finalScore info av d2 random /\
    severity_score s1 <= severity_score s2.
Proof.
  intros N1 N2 A1 A2 D1 D2 Hle.
  destruct (calculateDemoScore_completes info pts1 p random now N1)
    as (? & av1 & ? & e1 & _ & Ha1 & _ & He1 & Hc1).
  destruct (calculateDemoScore_completes info pts2 p random now N2)
    as (? & av2 & ? & e2 & _ & Ha2 & _ & He2 & Hc2).
  rewrite A1 in Ha1; rewrite A2 in Ha2; rewrite D1 in He1; rewrite D2 in He2.
  inversion Ha1; inversion Ha2; inversion He1; inversion He2; subst.
  eexists; eexists. split; [exact Hc1|]. split; [exact Hc2|].
  cbn [severity_score]. repeat split.
  now apply finalScore_monotone.
Qed.

Lemma severity_score_monotone_in_deviation_witness :
  exists s1 s2,
    calculateDemoScore (Some info_no) origin_trace (Some unit_params)
                       (1 / 2) 0 = Completed s1 /\
    calculateDemoScore (Some info_no) offset_trace (Some unit_params)
                       (1 / 2) 0 = Completed s2 /\
    severity_score s1 = finalScore info_no 0 0 (1 / 2) /\
    severity_score s2 = finalScore info_no 0 3 (1 / 2) /\
    severity_score s1 <= severity_score s2.
Proof.
  apply (severity_score_monotone_in_deviation
           info_no unit_params (1 / 2) 0 origin_trace offset_trace 0 0 3).
  - discriminate.
  - discriminate.
  - exact origin_trace_avgVariation.
  - exact offset_trace_avgVariation.
  - exact origin_trace_deviation.
  - exact offset_trace_deviation.
  - lra.
Defined.

(** C9. For every trace, with the random draw fixed, the score before the
    clamp is exactly 0.3 greater when [hasMovementDisorder] is 'yes' than
    when it is 'no'; and there is a drawing that is scored 0.3 and labelled
    Mild with 'yes' and scored 0 and labelled Normal with 'no'. *)
Theorem movement_disorder_adds_three_tenths :
  (forall (info_y info_n : QuestionnaireData) (pts : list DrawingPoint)
          (p : SpiralParams) (random now : R),
     pts <> [] ->
     hasMovementDisorder info_y = "yes"%string ->
     hasMovementDisorder info_n = "no"%string ->
     exists av dev sy sn,
       avgVariation pts = Some av /\ deviation pts p = Some dev /\
       calculateDemoScore (Some info_y) pts (Some p) random now
       = Completed sy /\
       calculateDemoScore (Some info_n) pts (Some p) random now
       = Completed sn /\
       severity_score sy
       = Rmax 0 (Rmin 3 (preClampScore info_y av dev random)) /\
       severity_score sn
       = Rmax 0 (Rmin 3 (preClampScore info_n av dev random)) /\
       preClampScore info_y av dev random
       = preClampScore info_n av dev random + 3 / 10) /\
  (exists sy sn,
     calculateDemoScore (Some info_yes) origin_trace (Some unit_params)
                        (1 / 2) 0 = Completed sy /\
     calculateDemoScore (Some info_no) origin_trace (Some unit_params)
                        (1 / 2) 0 = Completed sn /\
     severity_score sy <> severity_score sn /\
     getSeverityClassification (severity_score sy) = "Mild"%string /\
     getSeverityClassification (severity_score sn) = "Normal"%string).
Proof.
  split.
  - intros info_y info_n pts p random now Hne Hy Hn.
    destruct (calculateDemoScore_completes info_y pts p random now Hne)
      as (? & av & ? & dev & _ & Ha & _ & Hd & Hcy).
    destruct (calculateDemoScore_completes info_n pts p random now Hne)
      as (? & av' & ? & dev' & _ & Ha' & _ & Hd' & Hcn).
    rewrite Ha in Ha'; rewrite Hd in Hd'.
    inversion Ha'; inversion Hd'; subst av' dev'.
    exists av, dev. eexists; eexists.
    split; [exact Ha|]. split; [exact Hd|].
    split; [exact Hcy|]. split; [exact Hcn|].
    cbn [severity_score]. repeat split.
    now apply preClampScore_yes_no.
  - destruct (origin_run info_yes (1 / 2) 0) as (sy & Hcy & Hsy & _).
    destruct (origin_run info_no (1 / 2) 0) as (sn & Hcn & Hsn & _).
    exists sy, sn. split; [exact Hcy|]. split; [exact Hcn|].
    rewrite Hsy, Hsn, finalScore_origin_yes, finalScore_origin_no.
    split; [lra|]. split; classify.
Qed.

Lemma movement_disorder_adds_three_tenths_witness :
  exists av dev sy sn,
    avgVariation halting_trace = Some av /\
    deviation halting_trace canvas_params = Some dev /\
    calculateDemoScore (Some info_yes) halting_trace (Some canvas_params)
                       (1 / 4) 0 = Completed sy /\
    calculateDemoScore (Some info_no) halting_trace (Some canvas_params)
                       (1 / 4) 0 = Completed sn /\
    severity_score sy
    = Rmax 0 (Rmin 3 (preClampScore info_yes av dev (1 / 4))) /\
    severity_score sn
    = Rmax 0 (Rmin 3 (preClampScore info_no av dev (1 / 4))) /\
    preClampScore info_yes av dev (1 / 4)
    = preClampScore info_no av dev (1 / 4) + 3 / 10.
Proof.
  apply (proj1 movement_disorder_adds_three_tenths).
  - discriminate.
  - reflexivity.
  - reflexivity.
Defined.

(** C3 (as stated) fails. Two runs on the same questionnaire, trace and
    parameters, one with the draw 0.5 and one with the draw 0.9, produce the
    severity scores 0 and 0.16. *)
Lemma scoring_depends_on_random_draw :
  exists s1 s2,
    calculateDemoScore (Some info_no) origin_trace (Some unit_params)
                       (1 / 2) 0 = Completed s1 /\
    calculateDemoScore (Some info_no) origin_trace (Some unit_params)
                       (9 / 10) 0 = Completed s2 /\
    severity_score s1 = 0 /\ severity_score s2 = 4 / 25 /\
    severity_score s1 <> severity_score s2.
Proof.
  destruct (origin_run info_no (1 / 2) 0) as (s1 & Hc1 & Hs1 & _).
  destruct (origin_run info_no (9 / 10) 0) as (s2 & Hc2 & Hs2 & _).
  exists s1, s2. split; [exact Hc1|]. split; [exact Hc2|].
  rewrite Hs1, Hs2, finalScore_origin_no, finalScore_origin_high_draw.
  repeat split; lra.
Qed.

(** C3 (as amended). For a fixed trace and fixed parameters every run produces
    the same feature values and the same classification tag, whatever the
    questionnaire, the random draw and the clock; [spiral_id] is the clock
    value; and the severity score is the same whenever the questionnaire
    answer and the random draw are the same. *)
Theorem features_deterministic (info info' : QuestionnaireData)
    (pts : list DrawingPoint) (p : SpiralParams)
    (random random' now now' : R) :
  pts <> [] ->
  exists s s',
    calculateDemoScore (Some info) pts (Some p) random now = Completed s /\
    calculateDemoScore (Some info') pts (Some p) random' now'
    = Completed s' /\
    features s = features s' /\
    classification s = classification s' /\
    spiral_id s = now /\ spiral_id s' = now' /\
    (hasMovementDisorder info = hasMovementDisorder info' ->
     random = random' -> severity_score s = severity_score s').
Proof.
  intros Hne.
  destruct (calculateDemoScore_completes info pts p random now Hne)
    as (tm & av & ad & dev & Ht & Ha & Hd & He & Hc).
  destruct (calculateDemoScore_completes info' pts p random' now' Hne)
    as (tm' & av' & ad' & dev' & Ht' & Ha' & Hd' & He' & Hc').
  rewrite Ht in Ht'; rewrite Ha in Ha'; rewrite Hd in Hd'; rewrite He in He'.
  inversion Ht'; inversion Ha'; inversion Hd'; inversion He'.
  subst tm' av' ad' dev'.
  eexists; eexists. split; [exact Hc|]. split; [exact Hc'|].
  cbn [features classification spiral_id severity_score].
  repeat split.
  intros Hm <-. unfold finalScore, preClampScore, adjustedScore.
  now rewrite Hm.
Qed.

Lemma features_deterministic_witness :
  exists s s',
    calculateDemoScore (Some info_no) duplicated_trace (Some canvas_params)
                       (1 / 10) 1700000000000 = Completed s /\
    calculateDemoScore (Some info_no) duplicated_trace (Some canvas_params)
                       (1 / 10) 1700000002500 = Completed s' /\
    features s = features s' /\
    classification s = classification s' /\
    spiral_id s = 1700000000000 /\ spiral_id s' = 1700000002500 /\
    (hasMovementDisorder info_no = hasMovementDisorder info_no ->
     1 / 10 = 1 / 10 -> severity_score s = severity_score s').
Proof.
  apply features_deterministic. discriminate.
Defined.

(** C2 (as stated) fails. With the answer 'yes' the run on [origin_trace]
    scores 0.3 where the weighted mean of its two normalised metrics is 0;
    and no weight table and no z-score mapping computed from the trace and
    the parameters give the severity score as the weighted sum over the sum
    of absolute weights. *)
Lemma weighted_z_score_counterexample :
  (exists sd,
     calculateDemoScore (Some info_yes) origin_trace (Some unit_params)
                        (1 / 2) 0 = Completed sd /\
     severity_score sd = 3 / 10 /\
     spec_severity_score demo_weights (demo_z_scores 0 0) = 0) /\
  ~ (exists (weights : list (string * R))
            (zscores : list DrawingPoint -> SpiralParams
                       -> list (string * R)),
       forall info pts p random now sd,
         calculateDemoScore (Some info) pts (Some p) random now
         = Completed sd ->
         severity_score sd = spec_severity_score weights (zscores pts p)).
Proof.
  destruct (origin_run info_yes (1 / 2) 0) as (sy & Hcy & Hsy & _).
  destruct (origin_run info_no (1 / 2) 0) as (sn & Hcn & Hsn & _).
  rewrite finalScore_origin_yes in Hsy. rewrite finalScore_origin_no in Hsn.
  split.
  - exists sy. split; [exact Hcy|]. split; [exact Hsy|].
    rewrite demo_weighted_mean.
    unfold baseScore, smoothnessScore, deviationScore, Rmin.
    repeat (destruct (Rle_dec _ _)); lra.
  - intros (weights & zscores & H).
    pose proof (H _ _ _ _ _ _ Hcy) as Ey.
    pose proof (H _ _ _ _ _ _ Hcn) as En.
    rewrite Hsy in Ey. rewrite Hsn in En. lra.
Qed.

(** C2 (as amended). The severity score is the clamp to the interval from 0 to
    3 of: the equally weighted mean of the two capped metrics
    min(average variation / 10, 2) and min(deviation / 50, 2), which is the
    weighted sum over the sum of absolute weights for weight 1 on each, plus
    0.3 when [hasMovementDisorder] is 'yes', plus (random - 0.5) * 0.4. *)
Theorem demo_score_formula (info : QuestionnaireData)
    (pts : list DrawingPoint) (p : SpiralParams) (random now : R) :
  pts <> [] ->
  exists av dev sd,
    avgVariation pts = Some av /\ deviation pts p = Some dev /\
    calculateDemoScore (Some info) pts (Some p) random now = Completed sd /\
    severity_score sd
    = Rmax 0 (Rmin 3
        (spec_severity_score demo_weights
           [("path_smoothness"%string, Rmin (av / 10) 2);
            ("radial_deviation"%string, Rmin (dev / 50) 2)]
         + (if String.eqb (hasMovementDisorder info) "yes"
            then 3 / 10 else 0)
         + (random - 5 / 10) * (4 / 10))).
Proof.
  intros Hne.
  destruct (calculateDemoScore_completes info pts p random now Hne)
    as (? & av & ? & dev & _ & Ha & _ & Hd & Hc).
  exists av, dev. eexists.
  split; [exact Ha|]. split; [exact Hd|]. split; [exact Hc|].
  cbn [severity_score].
  change [("path_smoothness"%string, Rmin (av / 10) 2);
          ("radial_deviation"%string, Rmin (dev / 50) 2)]
    with (demo_z_scores av dev).
  rewrite demo_weighted_mean.
  unfold finalScore, preClampScore, adjustedScore, randomFactor.
  destruct (String.eqb _ _); do 2 f_equal; lra.
Qed.

Lemma demo_score_formula_witness :
  exists av dev sd,
    avgVariation halting_trace = Some av /\
    deviation halting_trace canvas_params = Some dev /\
    calculateDemoScore (Some info_yes) halting_trace (Some canvas_params)
                       (3 / 4) 0 = Completed sd /\
    severity_score sd
    = Rmax 0 (Rmin 3
        (spec_severity_score demo_weights
           [("path_smoothness"%string, Rmin (av / 10) 2);
            ("radial_deviation"%string, Rmin (dev / 50) 2)]
         + (if String.eqb (hasMovementDisorder info_yes) "yes"
            then 3 / 10 else 0)
         + (3 / 4 - 5 / 10) * (4 / 10))).
Proof.
  apply demo_score_formula. discriminate.
Defined.

(** ** No trace cleaning *)

Lemma spec_clean_from_repeat (eps : R) (p : DrawingPoint) (n : nat) :
  spec_clean_from eps p (repeat p n) = [].
Proof.
  induction n as [|n IH]; [reflexivity|].
  cbn [repeat spec_clean_from].
  destruct (Rlt_dec (t p) (t p)); [lra|exact IH].
Qed.

(** C5 (as stated) fails. Cleaning the trace of one sample repeated ten times
    leaves one sample, fewer than two, and the scorer completes on that trace
    and reports all ten samples. *)
Lemma trace_cleaner_counterexample :
  spec_clean (1 / 100) duplicated_trace = [mkPoint 120 350 0] /\
  (length (spec_clean (1 / 100) duplicated_trace) < 2)%nat /\
  exists sd,
    calculateDemoScore (Some info_no) duplicated_trace (Some canvas_params)
                       (1 / 2) 0 = Completed sd /\
    total_points (features sd) = 10%nat.
Proof.
  assert (Hc : spec_clean (1 / 100) duplicated_trace = [mkPoint 120 350 0]).
  { unfold duplicated_trace.
    change (repeat (mkPoint 120 350 0) 10)
      with (mkPoint 120 350 0 :: repeat (mkPoint 120 350 0) 9).
    cbn [spec_clean]. now rewrite spec_clean_from_repeat. }
  split; [exact Hc|]. split; [rewrite Hc; simpl; lia|].
  destruct (calculateDemoScore_completes info_no duplicated_trace
              canvas_params (1 / 2) 0) as (? & ? & ? & ? & _ & _ & _ & _ & H).
  { discriminate. }
  eexists. split; [exact H|]. reflexivity.
Qed.

(** C5 (as amended). The scorer does not clean the trace. It fails, with the
    message 'Missing patient data, spiral points, or spiral parameters', only
    when the trace is empty or a prop is missing; on every non-empty trace it
    completes and counts every sample, repeated ones included; and its
    [catch] branch is never taken. *)
Theorem only_empty_trace_rejected (pinfo : option QuestionnaireData)
    (pts : list DrawingPoint) (pparams : option SpiralParams)
    (random now : R) :
  (pinfo = None \/ pts = [] \/ pparams = None ->
   calculateDemoScore pinfo pts pparams random now
   = Failed missing_message) /\
  (forall info p,
     pinfo = Some info -> pparams = Some p -> pts <> [] ->
     exists sd,
       calculateDemoScore pinfo pts pparams random now = Completed sd /\
       total_points (features sd) = length pts) /\
  calculateDemoScore pinfo pts pparams random now <> Thrown.
Proof.
  assert (Hrun : forall info p, pts <> [] ->
            exists sd,
              calculateDemoScore (Some info) pts (Some p) random now
              = Completed sd /\
              total_points (features sd) = length pts).
  { intros info p Hne.
    destruct (calculateDemoScore_completes info pts p random now Hne)
      as (? & ? & ? & ? & _ & _ & _ & _ & H).
    eexists. split; [exact H|]. reflexivity. }
  split; [|split].
  - intros [->|[->| ->]].
    + reflexivity.
    + destruct pinfo, pparams; reflexivity.
    + destruct pinfo; reflexivity.
  - intros info p -> -> Hne. now apply Hrun.
  - destruct pinfo as [info|]; [|discriminate].
    destruct pparams as [p|]; [|discriminate].
    destruct pts as [|q r]; [discriminate|].
    destruct (Hrun info p) as (sd & Hsd & _); [discriminate|].
    rewrite Hsd. discriminate.
Qed.

Lemma only_empty_trace_rejected_witness :
  exists sd,
    calculateDemoScore (Some info_no) duplicated_trace (Some canvas_params)
                       (1 / 2) 0 = Completed sd /\
    total_points (features sd) = length duplicated_trace.
Proof.
  apply (proj1 (proj2 (only_empty_trace_rejected (Some info_no)
                         duplicated_trace (Some canvas_params) (1 / 2) 0))
               info_no canvas_params).
  - reflexivity.
  - reflexivity.
  - discriminate.
Defined.

(** * Further properties of the components *)


(** ** The report's smoothness label *)

Lemma calculateSmoothness_step_at (pts : list DrawingPoint) (i : nat)
    (p2 p1 p0 : DrawingPoint) (v : R) :
  nth_error pts (i - 2) = Some p2 -> nth_error pts (i - 1) = Some p1 ->
  nth_error pts i = Some p0 ->
  calculateSmoothness_step pts v i
  = Some (v + (if Rlt_dec 0 (distance p2 p1)
               then Rabs (distance p1 p0 - distance p2 p1) else 0)).
Proof.
  intros E2 E1 E0. unfold calculateSmoothness_step.
  rewrite E1, E2, E0. unfold distance.
  destruct (Rlt_dec 0 _); [reflexivity|].
  now rewrite Rplus_0_r.
Qed.

Lemma calculateSmoothness_loop_from (pts : list DrawingPoint)
    (count i : nat) (v : R) :
  (2 <= i)%nat -> (i + count = length pts)%nat ->
  for_range (calculateSmoothness_step pts) i count v
  = Some (v + Rsum (moving_changes (segment_lengths (skipn (i - 2) pts)))).
Proof.
  revert i v; induction count as [|k IH]; intros i v Hi Hn.
  - simpl.
    destruct (skipn (i - 2) pts) as [|q0 [|q1 [|q2 r]]] eqn:E;
      try (simpl; now rewrite Rplus_0_r).
    assert (H : length (skipn (i - 2) pts) = 2%nat)
      by (rewrite length_skipn; lia).
    rewrite E in H. simpl in H. lia.
  - destruct (nth_error_in_range _ pts i) as [p0 E0]; [lia|].
    destruct (nth_error_in_range _ pts (i - 1)) as [p1 E1]; [lia|].
    destruct (nth_error_in_range _ pts (i - 2)) as [p2 E2]; [lia|].
    rewrite for_range_S.
    rewrite (calculateSmoothness_step_at pts i p2 p1 p0) by assumption.
    rewrite IH by lia.
    replace (S i - 2)%nat with (i - 1)%nat by lia.
    rewrite (skipn_cons_nth_error _ pts (i - 2) p2 E2).
    replace (S (i - 2)) with (i - 1)%nat by lia.
    rewrite (skipn_cons_nth_error _ pts (i - 1) p1 E1).
    replace (S (i - 1)) with i by lia.
    rewrite (skipn_cons_nth_error _ pts i p0 E0).
    cbn [segment_lengths moving_changes]. rewrite Rsum_cons.
    f_equal. ring.
Qed.

Lemma moving_changes_short (l : list DrawingPoint) :
  (length l <= 2)%nat -> moving_changes (segment_lengths l) = [].
Proof.
  destruct l as [|p [|q [|s r]]]; simpl; intros; try reflexivity; lia.
Qed.

Lemma calculateSmoothness_variations_closed (pts : list DrawingPoint) :
  calculateSmoothness_variations pts
  = Some (Rsum (moving_changes (segment_lengths pts))).
Proof.
  unfold calculateSmoothness_variations.
  destruct (Nat.le_gt_cases (length pts) 2) as [H|H].
  - replace (length pts - 2)%nat with 0%nat by lia.
    now rewrite moving_changes_short.
  - rewrite calculateSmoothness_loop_from by lia. simpl skipn.
    now rewrite Rplus_0_l.
Qed.

Lemma moving_changes_bounds (ds : list R) :
  0 <= Rsum (moving_changes ds) <= Rsum (abs_changes ds).
Proof.
  induction ds as [|d1 [|d2 r] IH]; try (simpl; lra).
  change (moving_changes (d1 :: d2 :: r))
    with ((if Rlt_dec 0 d1 then Rabs (d2 - d1) else 0)
          :: moving_changes (d2 :: r)).
  change (abs_changes (d1 :: d2 :: r))
    with (Rabs (d2 - d1) :: abs_changes (d2 :: r)).
  rewrite !Rsum_cons. pose proof (Rabs_pos (d2 - d1)).
  destruct (Rlt_dec 0 d1); lra.
Qed.

Lemma moving_changes_all_moving (ds : list R) :
  Forall (fun d => 0 < d) ds -> moving_changes ds = abs_changes ds.
Proof.
  induction ds as [|d1 [|d2 r] IH]; intros H; try reflexivity.
  change (moving_changes (d1 :: d2 :: r))
    with ((if Rlt_dec 0 d1 then Rabs (d2 - d1) else 0)
          :: moving_changes (d2 :: r)).
  change (abs_changes (d1 :: d2 :: r))
    with (Rabs (d2 - d1) :: abs_changes (d2 :: r)).
  inversion H as [|? ? Hd Hr]; subst.
  rewrite IH by assumption. destruct (Rlt_dec 0 d1); [reflexivity|lra].
Qed.

(** X1. The report's smoothness label is never missing: the loop of
    [calculateSmoothness] reads no sample past the end.  The label is 'N/A'
    exactly for fewer than three samples, and otherwise one of 'Excellent',
    'Good', 'Fair' and 'Variable'. *)
Theorem calculateSmoothness_total (drawingData : list DrawingPoint) :
  (calculateSmoothness drawingData = Some "N/A"%string
   <-> (length drawingData < 3)%nat) /\
  ((3 <= length drawingData)%nat ->
   exists label,
     calculateSmoothness drawingData = Some label /\
     In label ["Excellent"; "Good"; "Fair"; "Variable"]%string).
Proof.
  unfold calculateSmoothness.
  rewrite calculateSmoothness_variations_closed.
  destruct (length drawingData <? 3)%nat eqn:E.
  - apply Nat.ltb_lt in E. split; [tauto|lia].
  - apply Nat.ltb_ge in E. split.
    + split; [|lia]. intros H.
      repeat (destruct (Rlt_dec _ _) in H); discriminate.
    + intros _. repeat (destruct (Rlt_dec _ _));
        eexists; (split; [reflexivity|simpl; tauto]).
Qed.

(** X2. On a trace of at least three samples the average the report rates
    is never above the scorer's average variation: the report adds a change
    only after a step of positive length and divides by the number of
    samples.  When every step has positive length, it is the scorer's
    average times (n - 2) / n.  Hence a scorer's average below 2 is labelled
    'Excellent', and 'Variable' means a scorer's average of at least 10. *)
Theorem report_average_below_scorer_average (pts : list DrawingPoint)
    (av : R) :
  (3 <= length pts)%nat ->
  avgVariation pts = Some av ->
  exists v,
    calculateSmoothness_variations pts = Some v /\
    0 <= v / INR (length pts) <= av /\
    (Forall (fun d => 0 < d) (segment_lengths pts) ->
     v / INR (length pts) = av * (INR (length pts) - 2) / INR (length pts)) /\
    (av < 2 -> calculateSmoothness pts = Some "Excellent"%string) /\
    (calculateSmoothness pts = Some "Variable"%string -> 10 <= av).
Proof.
  intros Hn Hav.
  rewrite avgVariation_closed in Hav. inversion Hav as [Hav']. clear Hav.
  set (S := Rsum (abs_changes (segment_lengths pts))) in *.
  set (v := Rsum (moving_changes (segment_lengths pts))).
  assert (Hn3 : 3 <= INR (length pts)).
  { replace 3 with (INR 3) by (simpl; lra). now apply le_INR. }
  rewrite Rmax_right in * by lra.
  destruct (moving_changes_bounds (segment_lengths pts)) as [Hv0 HvS].
  fold v in Hv0, HvS. fold S in HvS.
  assert (Hle : 0 <= v / INR (length pts)
                <= S / (INR (length pts) - 2)).
  { split.
    - apply Rmult_le_pos; [assumption|].
      apply Rlt_le, Rinv_0_lt_compat; lra.
    - apply Rle_trans with (v / (INR (length pts) - 2)).
      + apply Rmult_le_compat_l; [assumption|].
        apply Rinv_le_contravar; lra.
      + apply Rmult_le_compat_r; [|assumption].
        apply Rlt_le, Rinv_0_lt_compat; lra. }
  exists v. split; [apply calculateSmoothness_variations_closed|].
  split; [exact Hle|]. split; [|split].
  - intros Hall. unfold v. rewrite moving_changes_all_moving by assumption.
    fold S. field. lra.
  - intros Hlt. unfold calculateSmoothness.
    rewrite calculateSmoothness_variations_closed. fold v.
    replace (length pts <? 3)%nat with false
      by (symmetry; apply Nat.ltb_ge; lia).
    destruct (Rlt_dec (v / INR (length pts)) 2); [reflexivity|lra].
  - unfold calculateSmoothness.
    rewrite calculateSmoothness_variations_closed. fold v.
    replace (length pts <? 3)%nat with false
      by (symmetry; apply Nat.ltb_ge; lia).
    repeat (destruct (Rlt_dec _ _)); intros H; try discriminate. lra.
Qed.

Lemma report_average_below_scorer_average_witness :
  exists v,
    calculateSmoothness_variations halting_trace = Some v /\
    0 <= v / INR (length halting_trace) <= 5 /\
    (Forall (fun d => 0 < d) (segment_lengths halting_trace) ->
     v / INR (length halting_trace)
     = 5 * (INR (length halting_trace) - 2) / INR (length halting_trace)) /\
    (5 < 2 -> calculateSmoothness halting_trace = Some "Excellent"%string) /\
    (calculateSmoothness halting_trace = Some "Variable"%string -> 10 <= 5).
Proof.
  apply report_average_below_scorer_average.
  - simpl. lia.
  - exact halting_trace_avgVariation.
Defined.


(** ** The printed score *)

Lemma toFixed2_nonneg_spec (v : R) (n : Z) :
  0 <= v -> IZR n - / 2 <= v * 100 < IZR n + / 2 -> toFixed2 v = n.
Proof.
  intros Hv H. unfold toFixed2.
  destruct (Rlt_dec v 0); [lra|].
  symmetry. apply Int_part_spec. lra.
Qed.

Lemma toFixed2_nonneg_error (v : R) :
  0 <= v -> - / 200 < IZR (toFixed2 v) / 100 - v <= / 200.
Proof.
  intros Hv. unfold toFixed2. destruct (Rlt_dec v 0); [lra|].
  destruct (base_Int_part (v * 100 + / 2)) as [H1 H2]. lra.
Qed.

Lemma toFixed2_range (v : R) (lo hi : Z) :
  0 <= v -> IZR lo <= v * 100 <= IZR hi ->
  (lo <= toFixed2 v <= hi)%Z.
Proof.
  intros Hv [Hlo Hhi]. unfold toFixed2. destruct (Rlt_dec v 0); [lra|].
  destruct (base_Int_part (v * 100 + / 2)) as [H1 H2].
  split.
  - apply Z.lt_succ_r. apply lt_IZR. rewrite succ_IZR. lra.
  - apply Z.lt_succ_r. apply lt_IZR. rewrite succ_IZR. lra.
Qed.

(** X3. Just below a threshold the report's label and the score printed
    beside it disagree: a score from 0.295 up to but excluding 0.3 is
    labelled 'Normal' and printed as 0.30, and likewise 'Mild' with 1.00 and
    'Moderate' with 2.00 below the other two thresholds. *)
Theorem label_and_printed_score_at_thresholds (scoreData : ScoreData) :
  (295 / 1000 <= severity_score scoreData < 3 / 10 ->
   severity scoreData = "Normal"%string /\ scoreText scoreData = 30%Z) /\
  (995 / 1000 <= severity_score scoreData < 1 ->
   severity scoreData = "Mild"%string /\ scoreText scoreData = 100%Z) /\
  (1995 / 1000 <= severity_score scoreData < 2 ->
   severity scoreData = "Moderate"%string /\ scoreText scoreData = 200%Z).
Proof.
  unfold severity, scoreText.
  repeat split; try classify; apply toFixed2_nonneg_spec; lra.
Qed.

(** X4. The score the report prints for a completed run of the scorer lies
    between 0.00 and 3.00 and is within 0.005 of the severity score. *)
Theorem printed_score_of_a_run (pinfo : option QuestionnaireData)
    (pts : list DrawingPoint) (pparams : option SpiralParams)
    (random now : R) (sd : ScoreData) :
  calculateDemoScore pinfo pts pparams random now = Completed sd ->
  (0 <= scoreText sd <= 300)%Z /\
  - / 200 < IZR (scoreText sd) / 100 - severity_score sd <= / 200.
Proof.
  intros H.
  destruct (calculateDemoScore_Completed_inv _ _ _ _ _ _ H)
    as (info & p & -> & -> & Hne).
  destruct (calculateDemoScore_completes info pts p random now Hne)
    as (? & av & ? & dev & _ & _ & _ & _ & Hc).
  rewrite H in Hc. inversion Hc as [Hsd]. unfold scoreText.
  cbn [severity_score].
  destruct (finalScore_bounds info av dev random) as [H0 H3].
  split.
  - apply toFixed2_range; lra.
  - now apply toFixed2_nonneg_error.
Qed.

Lemma label_and_printed_score_at_thresholds_witness :
  severity {| spiral_id := 0; severity_score := 299 / 1000;
              classification := "tremor_score_demo";
              features := mkMetrics 1 0 0 0 0 |} = "Normal"%string /\
  scoreText {| spiral_id := 0; severity_score := 299 / 1000;
               classification := "tremor_score_demo";
               features := mkMetrics 1 0 0 0 0 |} = 30%Z.
Proof.
  apply (proj1 (label_and_printed_score_at_thresholds _)).
  cbn [severity_score]. lra.
Defined.

Lemma printed_score_of_a_run_witness :
  exists sd,
    calculateDemoScore (Some info_yes) origin_trace (Some unit_params)
                       (1 / 2) 0 = Completed sd /\
    (0 <= scoreText sd <= 300)%Z /\
    - / 200 < IZR (scoreText sd) / 100 - severity_score sd <= / 200.
Proof.
  destruct (origin_run info_yes (1 / 2) 0) as (sd & Hsd & _).
  exists sd. split; [exact Hsd|].
  exact (printed_score_of_a_run _ _ _ _ _ _ Hsd).
Defined.

(** ** The reference spiral *)

Lemma referenceVertex_radius (width height : R) (i : nat) :
  a (drawReferenceSpiral width height)
  + b (drawReferenceSpiral width height) * (INR i / steps * totalAngle)
  = Rmin width height * (35 / 100) * (INR i / 500).
Proof.
  pose proof PI_RGT_0. unfold drawReferenceSpiral, totalAngle, turns, steps.
  cbn [a b]. field. lra.
Qed.

Lemma cos_three_turns : cos (3 * 2 * PI) = 1.
Proof.
  replace (3 * 2 * PI) with (0 + 2 * INR 3 * PI) by (simpl; lra).
  rewrite cos_period. apply cos_0.
Qed.

Lemma sin_three_turns : sin (3 * 2 * PI) = 0.
Proof.
  replace (3 * 2 * PI) with (0 + 2 * INR 3 * PI) by (simpl; lra).
  rewrite sin_period. apply sin_0.
Qed.

(** X5. The reference spiral fits the canvas.  Vertex [i] of the polyline,
    [i] from 0 to 500, lies at distance 0.35 * min (width, height) * i / 500
    from the centre of the canvas, hence inside the canvas; the polyline
    starts at the centre and ends, after three turns, on the horizontal
    through the centre at 35 percent of the smaller side. *)
Theorem reference_spiral_fits_canvas (width height : R) (i : nat) :
  0 <= width -> 0 <= height -> (i <= 500)%nat ->
  (fst (referenceVertex width height i) - width / 2) ^ 2
  + (snd (referenceVertex width height i) - height / 2) ^ 2
  = (Rmin width height * (35 / 100) * (INR i / 500)) ^ 2 /\
  0 <= fst (referenceVertex width height i) <= width /\
  0 <= snd (referenceVertex width height i) <= height /\
  referenceVertex width height 0 = (width / 2, height / 2) /\
  referenceVertex width height 500
  = (width / 2 + Rmin width height * (35 / 100), height / 2).
Proof.
  intros Hw Hh Hi.
  set (maxRadius := Rmin width height * (35 / 100)).
  assert (Hm : 0 <= Rmin width height) by (apply Rmin_glb; assumption).
  assert (Hmw : Rmin width height <= width) by apply Rmin_l.
  assert (Hmh : Rmin width height <= height) by apply Rmin_r.
  assert (Hi0 : 0 <= INR i / 500 <= 1).
  { pose proof (pos_INR i). apply le_INR in Hi.
    replace (INR 500) with 500 in Hi
      by (rewrite INR_IZR_INZ; reflexivity).
    lra. }
  assert (Hv : forall k,
            referenceVertex width height k
            = (width / 2 + maxRadius * (INR k / 500)
                           * cos (INR k / steps * totalAngle),
               height / 2 + maxRadius * (INR k / 500)
                            * sin (INR k / steps * totalAngle))).
  { intros k. unfold referenceVertex. cbv zeta.
    now rewrite referenceVertex_radius. }
  assert (H500 : INR 500 = 500) by (rewrite INR_IZR_INZ; reflexivity).
  rewrite !Hv. cbn [fst snd].
  set (r := maxRadius * (INR i / 500)).
  set (th := INR i / steps * totalAngle).
  assert (Hr : 0 <= r <= maxRadius).
  { unfold r, maxRadius. split; nra. }
  pose proof (COS_bound th) as Hc. pose proof (SIN_bound th) as Hs.
  pose proof (sin2_cos2 th) as Hsc. unfold Rsqr in Hsc.
  unfold maxRadius in Hr.
  split; [nra|]. split; [nra|]. split; [nra|]. split.
  - simpl INR. f_equal; unfold Rdiv; rewrite !Rmult_0_l, ?Rmult_0_r; lra.
  - rewrite H500. unfold steps.
    replace (500 / 500 * totalAngle) with (3 * 2 * PI)
      by (unfold totalAngle, turns; lra).
    rewrite cos_three_turns, sin_three_turns. f_equal; lra.
Qed.

Lemma reference_spiral_fits_canvas_witness :
  (fst (referenceVertex 400 300 125) - 400 / 2) ^ 2
  + (snd (referenceVertex 400 300 125) - 300 / 2) ^ 2
  = (Rmin 400 300 * (35 / 100) * (INR 125 / 500)) ^ 2 /\
  0 <= fst (referenceVertex 400 300 125) <= 400 /\
  0 <= snd (referenceVertex 400 300 125) <= 300 /\
  referenceVertex 400 300 0 = (400 / 2, 300 / 2) /\
  referenceVertex 400 300 500
  = (400 / 2 + Rmin 400 300 * (35 / 100), 300 / 2).
Proof.
  apply reference_spiral_fits_canvas; [lra|lra|lia].
Defined.

(** ** The drawing session *)

Lemma handleCanvasEvent_refs (s : CanvasState) (ev : CanvasEvent) :
  startTimeRef (handleCanvasEvent s ev) = startTimeRef s /\
  spiralParamsRef (handleCanvasEvent s ev) = spiralParamsRef s.
Proof.
  destruct ev as [e page|e page|]; cbn [handleCanvasEvent].
  - unfold startDrawing. destruct (getCoordinates s page e); now split.
  - unfold draw. destruct (isDrawing s); [|now split].
    destruct (getCoordinates s page e); [|now split].
    destruct (canvasRef page) as [element|]; [|now split].
    destruct (has_context element); now split.
  - now split.
Qed.

Lemma fold_handleCanvasEvent_refs (events : list CanvasEvent)
    (s : CanvasState) :
  startTimeRef (fold_left handleCanvasEvent events s) = startTimeRef s /\
  spiralParamsRef (fold_left handleCanvasEvent events s) = spiralParamsRef s.
Proof.
  revert s; induction events as [|ev r IH]; intros s; [now split|].
  cbn [fold_left]. destruct (IH (handleCanvasEvent s ev)) as [H1 H2].
  destruct (handleCanvasEvent_refs s ev) as [H3 H4].
  split; congruence.
Qed.

Lemma getCoordinates_locatable (s : CanvasState) (page : Page)
    (e : PointerEvent) :
  locatable page e ->
  exists coords,
    getCoordinates s page e = Some coords /\
    t coords = clock page - startTimeRef s.
Proof.
  intros [Hc He]. unfold getCoordinates.
  destruct (canvasRef page) as [element|]; [|contradiction].
  destruct e as [cx cy|[|[cx cy] r]]; try contradiction;
    eexists; (split; [reflexivity|reflexivity]).
Qed.


Lemma getCoordinates_same_start (s s' : CanvasState) (page : Page)
    (e : PointerEvent) :
  startTimeRef s = startTimeRef s' ->
  getCoordinates s page e = getCoordinates s' page e.
Proof. intros H. unfold getCoordinates. now rewrite H. Qed.

(** X6. Only the last stroke is kept.  When the pointer goes down at a
    position the canvas can locate, everything recorded before is dropped:
    the session ends in the same state as if it had begun with that
    event. *)
Theorem restart_discards_earlier_strokes (mounted : Page)
    (before after : list CanvasEvent) (e : PointerEvent) (page : Page) :
  locatable page e ->
  session mounted (before ++ PointerDown e page :: after)
  = session mounted (PointerDown e page :: after).
Proof.
  intros Hloc. unfold session. rewrite fold_left_app.
  cbn [fold_left]. f_equal. cbn [handleCanvasEvent].
  set (s := fold_left handleCanvasEvent before (mount mounted)).
  destruct (fold_handleCanvasEvent_refs before (mount mounted))
    as [Hs Hp]. fold s in Hs, Hp.
  unfold startDrawing.
  rewrite (getCoordinates_same_start s (mount mounted)) by exact Hs.
  destruct (getCoordinates_locatable (mount mounted) page e Hloc)
    as (coords & -> & _).
  now rewrite Hs, Hp.
Qed.

(** X7. Nothing is recorded while the pointer is up: from a state that is
    not drawing, events without a pointer-down leave the state as it is. *)
Theorem nothing_recorded_while_pointer_up (s : CanvasState)
    (events : list CanvasEvent) :
  isDrawing s = false -> has_no_pointer_down events ->
  fold_left handleCanvasEvent events s = s.
Proof.
  revert s; induction events as [|ev r IH]; intros s Hs Hno;
    [reflexivity|].
  cbn [fold_left].
  assert (Hev : handleCanvasEvent s ev = s).
  { destruct ev as [e page|e page|]; cbn [handleCanvasEvent].
    - exfalso. apply (Hno e page). now left.
    - unfold draw. now rewrite Hs.
    - unfold stopDrawing. rewrite <- Hs. now destruct s. }
  rewrite Hev. apply IH; [assumption|].
  intros e page Hin. apply (Hno e page). now right.
Qed.











Lemma handleDone_OnComplete_inv (mounted : Page)
    (events : list CanvasEvent) (pts : list DrawingPoint) (a0 b0 : R) :
  handleDone (session mounted events) = OnComplete pts a0 b0 ->
  pts = points (session mounted events) /\ pts <> [] /\
  a0 = 0 /\
  exists element,
    canvasRef mounted = Some element /\ has_context element = true /\
    b0 * (3 * 2 * PI)
    = Rmin (rect_width element) (rect_height element) * (35 / 100).
Proof.
  unfold handleDone, session.
  destruct (fold_handleCanvasEvent_refs events (mount mounted)) as [_ Hp].
  set (s := fold_left handleCanvasEvent events (mount mounted)) in *.
  destruct (points s) as [|q r] eqn:Epts; cbn [length Nat.eqb];
    [discriminate|].
  rewrite Hp. unfold mount.
  destruct (canvasRef mounted) as [element|]; [|discriminate].
  destruct (has_context element) eqn:Hctx; [|discriminate].
  cbn [spiralParamsRef]. intros H. inversion H; subst.
  split; [reflexivity|]. split; [discriminate|]. split; [reflexivity|].
  exists element. split; [reflexivity|]. split; [exact Hctx|].
  pose proof PI_RGT_0. unfold drawReferenceSpiral, totalAngle, turns.
  cbn [b]. field. lra.
Qed.

(** X9. What the canvas hands over is never empty: [handleDone] calls
    [onComplete] only with the samples recorded, at least one, and with the
    parameters [a = 0] and [b = 0.35 * min (width, height) / (6 PI)] of the
    spiral drawn at the mount. *)
Theorem handleDone_hands_over (mounted : Page)
    (events : list CanvasEvent) (pts : list DrawingPoint) (a0 b0 : R) :
  handleDone (session mounted events) = OnComplete pts a0 b0 ->
  pts = points (session mounted events) /\ pts <> [] /\
  a0 = 0 /\
  exists element,
    canvasRef mounted = Some element /\ has_context element = true /\
    b0 * (3 * 2 * PI)
    = Rmin (rect_width element) (rect_height element) * (35 / 100).
Proof. apply handleDone_OnComplete_inv. Qed.

Lemma two_strokes_session :
  session (page_at 1000) two_strokes
  = {| isDrawing := false;
       points := [mkPoint (221 - 20) (281 - 80) (2000 - 1000);
                  mkPoint (225 - 20) (290 - 80) (2016 - 1000)];
       startTimeRef := 1000;
       spiralParamsRef := Some (drawReferenceSpiral 400 400) |}.
Proof. reflexivity. Qed.

Lemma restart_discards_earlier_strokes_witness :
  session (page_at 1000) two_strokes
  = session (page_at 1000)
            (PointerDown (TouchEvent [(221, 281)]) (page_at 2000)
             :: second_stroke_rest).
Proof.
  apply (restart_discards_earlier_strokes (page_at 1000) first_stroke
           second_stroke_rest (TouchEvent [(221, 281)]) (page_at 2000)).
  split; discriminate.
Defined.

Lemma nothing_recorded_while_pointer_up_witness :
  fold_left handleCanvasEvent pen_up_moves
            (session (page_at 1000) two_strokes)
  = session (page_at 1000) two_strokes.
Proof.
  apply nothing_recorded_while_pointer_up.
  - reflexivity.
  - intros e page [H|[H|[H|[]]]]; discriminate.
Defined.


Lemma handleDone_hands_over_witness :
  points (session (page_at 1000) two_strokes)
  = points (session (page_at 1000) two_strokes) /\
  points (session (page_at 1000) two_strokes) <> [] /\
  a (drawReferenceSpiral 400 400) = 0 /\
  exists element,
    canvasRef (page_at 1000) = Some element /\
    has_context element = true /\
    b (drawReferenceSpiral 400 400) * (3 * 2 * PI)
    = Rmin (rect_width element) (rect_height element) * (35 / 100).
Proof.
  apply (handleDone_hands_over (page_at 1000) two_strokes).
  reflexivity.
Defined.

(** ** The questionnaire *)

Lemma existsb_eqb_In (v : string) (l : list string) :
  existsb (String.eqb v) l = true -> In v l.
Proof.
  intros H. apply existsb_exists in H. destruct H as (w & Hin & Heq).
  apply String.eqb_eq in Heq. now subst.
Qed.

Lemma questionnaire_step_invariant (s : QuestionnaireData)
    (ev : QuestionnaireScreen.Event) :
  questionnaire_invariant s ->
  questionnaire_invariant (fst (QuestionnaireScreen.step s ev)).
Proof.
  intros [Hh Hd]. destruct ev as [value|option|disorder|];
    cbn [QuestionnaireScreen.step].
  - split; assumption.
  - destruct (existsb (String.eqb option) QuestionnaireScreen.options)
      eqn:E; cbn [fst]; [|now split].
    apply existsb_eqb_In in E. cbn [QuestionnaireScreen.options In] in E.
    destruct E as [<-|[<-|[]]]; cbn [String.eqb Ascii.eqb Bool.eqb].
    + split; cbn [hasMovementDisorder disorderType]; [tauto|].
      destruct Hd as [Hd|[_ Hd]]; [now left|right; now split].
    + split; cbn [hasMovementDisorder disorderType]; tauto.
  - destruct (String.eqb (hasMovementDisorder s) "yes") eqn:Ey;
      cbn [andb fst]; [|now split].
    destruct (existsb (String.eqb disorder) QuestionnaireScreen.disorders)
      eqn:E; cbn [fst]; [|now split].
    apply String.eqb_eq in Ey. apply existsb_eqb_In in E.
    split; cbn [hasMovementDisorder disorderType]; [tauto|].
    right. now split.
  - destruct (QuestionnaireScreen.isValid s); now split.
Qed.

Lemma questionnaire_run_invariant (events : list QuestionnaireScreen.Event) :
  questionnaire_invariant (QuestionnaireScreen.run events).
Proof.
  unfold QuestionnaireScreen.run.
  assert (H : questionnaire_invariant QuestionnaireScreen.initial).
  { split; now left. }
  revert H. generalize QuestionnaireScreen.initial.
  induction events as [|ev r IH]; intros s Hs; [exact Hs|].
  cbn [fold_left]. apply IH. now apply questionnaire_step_invariant.
Qed.

Lemma truthy_true (s : string) :
  QuestionnaireScreen.truthy s = true -> s <> ""%string.
Proof.
  unfold QuestionnaireScreen.truthy. intros H E. subst. discriminate.
Qed.

(** X10. Whatever is entered in the questionnaire, only the Confirm button
    confirms, and what it confirms is the state of the form with an age
    entered and either the answer 'no' with no disorder type, shown as
    'None' in the report, or the answer 'yes' with one of the four listed
    disorder types, shown as such. *)
Theorem confirmed_questionnaire_is_complete
    (events : list QuestionnaireScreen.Event)
    (ev : QuestionnaireScreen.Event) (data : QuestionnaireData) :
  snd (QuestionnaireScreen.step (QuestionnaireScreen.run events) ev)
  = Some data ->
  ev = QuestionnaireScreen.ConfirmClick /\
  data = QuestionnaireScreen.run events /\
  age data <> ""%string /\
  ((hasMovementDisorder data = "no"%string /\
    disorderType data = ""%string /\
    movementDisorderShown data = "None"%string) \/
   (hasMovementDisorder data = "yes"%string /\
    In (disorderType data) QuestionnaireScreen.disorders /\
    movementDisorderShown data = disorderType data)).
Proof.
  pose proof (questionnaire_run_invariant events) as [Hh Hd].
  set (s := QuestionnaireScreen.run events) in *.
  destruct ev as [value|option|disorder|]; cbn [QuestionnaireScreen.step].
  - discriminate.
  - destruct (existsb _ _); discriminate.
  - destruct (_ && _); discriminate.
  - destruct (QuestionnaireScreen.isValid s) eqn:Ev; [|discriminate].
    cbn [snd]. unfold QuestionnaireScreen.handleSubmit.
    unfold QuestionnaireScreen.isValid in Ev.
    apply andb_prop in Ev. destruct Ev as [Ev Ed].
    rewrite Ev. intros H. inversion H as [Hdata].
    assert (Hs : data = s) by (subst data; now destruct s).
    rewrite Hdata. rewrite Hs.
    apply andb_prop in Ev. destruct Ev as [Ea Eh].
    apply truthy_true in Ea. apply truthy_true in Eh.
    split; [reflexivity|]. split; [reflexivity|]. split; [exact Ea|].
    unfold movementDisorderShown.
    destruct Hh as [Hh|[Hh|Hh]]; [contradiction| |].
    + right. rewrite Hh in *. cbn [String.eqb Ascii.eqb Bool.eqb] in *.
      cbn [orb] in Ed. apply truthy_true in Ed.
      destruct Hd as [Hd|[_ Hd]]; [contradiction|]. now repeat split.
    + left. rewrite Hh in *. cbn [String.eqb Ascii.eqb Bool.eqb].
      destruct Hd as [Hd|[Hy _]]; [now repeat split|discriminate].
Qed.

(** ** The App *)

(** X11. The screens follow in one order: an event either leaves the App as
    it is or moves it to the next screen of the cycle home, questionnaire,
    instruction, canvas, processing, report, home. *)
Theorem app_screens_follow_in_order (s : App.AppState) (ev : App.Event) :
  App.step s ev = s \/
  App.currentScreen (App.step s ev) = next_screen (App.currentScreen s).
Proof.
  unfold App.step, App.render.
  destruct (App.currentScreen s) eqn:E;
    try (destruct (0 <? length (App.drawingData s))%nat);
    try (destruct (App.spiralParams s));
    try (destruct (App.scoreData s));
    destruct ev; try (now left); right; cbn; now rewrite ?E.
Qed.

(** X12. A state in which the App renders no component is a dead end: no
    callback can be called, so no sequence of events changes it.  This is
    the state an empty drawing would lead to. *)
Theorem blank_screen_is_a_dead_end (s : App.AppState)
    (events : list App.Event) :
  App.render s = App.Blank -> fold_left App.step events s = s.
Proof.
  intros H. induction events as [|ev r IH]; [reflexivity|].
  cbn [fold_left].
  replace (App.step s ev) with s; [exact IH|].
  unfold App.step. rewrite H. now destruct ev.
Qed.

Lemma app_step_invariant (s : App.AppState) (ev : App.Event) :
  canvas_contract ev -> app_invariant s -> app_invariant (App.step s ev).
Proof.
  intros Hev Hs. unfold App.step, App.render.
  unfold app_invariant in Hs.
  destruct (App.currentScreen s) eqn:E.
  - destruct ev; try (unfold app_invariant; now rewrite E).
    subst s. cbn. repeat split.
  - destruct ev; try (unfold app_invariant; now rewrite E).
    cbn. exact Hs.
  - destruct ev; try (unfold app_invariant; now rewrite E); cbn; exact Hs.
  - destruct ev; try (unfold app_invariant; now rewrite E).
    cbn in *. destruct Hs as (_ & _ & Hsc).
    repeat split; [assumption|discriminate|assumption].
  - destruct (0 <? length (App.drawingData s))%nat;
      [destruct (App.spiralParams s) eqn:Ep|];
      destruct ev; try (unfold app_invariant; now rewrite E, ?Ep).
    cbn. rewrite Ep. destruct Hs as (Hd & _ & _).
    repeat split; [assumption|discriminate|discriminate].
  - destruct (0 <? length (App.drawingData s))%nat;
      [destruct (App.scoreData s) eqn:Es|];
      destruct ev; try (unfold app_invariant; now rewrite E, ?Es).
    reflexivity.
Qed.

Lemma app_invariant_rendered (s : App.AppState) :
  app_invariant s -> App.render s <> App.Blank.
Proof.
  unfold app_invariant, App.render.
  destruct (App.currentScreen s); try discriminate.
  - intros (Hd & Hp & _).
    destruct (App.drawingData s); [contradiction|]. cbn.
    destruct (App.spiralParams s); [discriminate|contradiction].
  - intros (Hd & _ & Hsc).
    destruct (App.drawingData s); [contradiction|]. cbn.
    destruct (App.scoreData s); [discriminate|contradiction].
Qed.

(** X13. As long as the canvas hands over non-empty drawings, the App always
    renders a component; whenever it shows the home screen all data of the
    previous visit are cleared, and whenever it shows the canvas no drawing
    and no score of a previous visit are left. *)
Theorem app_never_blank (events : list App.Event) :
  Forall canvas_contract events ->
  App.render (App.run events) <> App.Blank /\
  (App.currentScreen (App.run events) = App.home ->
   App.run events = App.initial) /\
  (App.currentScreen (App.run events) = App.canvas ->
   App.drawingData (App.run events) = [] /\
   App.scoreData (App.run events) = None).
Proof.
  intros Hev.
  assert (H : app_invariant (App.run events)).
  { unfold App.run.
    assert (H0 : app_invariant App.initial) by reflexivity.
    revert H0. generalize App.initial.
    induction Hev as [|ev r Hc Hr IH]; intros s Hs; [exact Hs|].
    cbn [fold_left]. apply IH. now apply app_step_invariant. }
  split; [now apply app_invariant_rendered|].
  unfold app_invariant in H. split; intros E; rewrite E in H.
  - exact H.
  - tauto.
Qed.

(** X14. From the canvas to the report: when [handleDone] hands a drawing
    over while the App shows the canvas, the App renders the processing
    screen with the confirmed questionnaire, that drawing and those
    parameters; the scorer completes on these props, whatever the random
    draw and the clock; and with its result the App renders the report. *)
Theorem drawing_reaches_the_report (s : App.AppState) (mounted : Page)
    (events : list CanvasEvent) (pts : list DrawingPoint) (a0 b0 : R)
    (random now : R) :
  App.render s = App.ShowCanvas ->
  handleDone (session mounted events) = OnComplete pts a0 b0 ->
  App.render (App.step s (App.CanvasComplete pts a0 b0))
  = App.ShowProcessing (App.questionnaireData s) pts {| a := a0; b := b0 |}
  /\
  exists sd,
    calculateDemoScore (Some (App.questionnaireData s)) pts
                       (Some {| a := a0; b := b0 |}) random now
    = Completed sd /\
    App.render (App.step (App.step s (App.CanvasComplete pts a0 b0))
                         (App.ProcessingComplete sd))
    = App.ShowReport pts (App.questionnaireData s) sd.
Proof.
  intros Hr Hd.
  set (s1 := App.step s (App.CanvasComplete pts a0 b0)).
  destruct (handleDone_OnComplete_inv mounted events pts a0 b0 Hd)
    as (_ & Hne & _).
  assert (Hlen : (0 <? length pts)%nat = true).
  { destruct pts; [contradiction|reflexivity]. }
  assert (H1 : App.render s1
               = App.ShowProcessing (App.questionnaireData s) pts
                                    {| a := a0; b := b0 |}).
  { unfold s1, App.step. rewrite Hr.
    unfold App.render, App.handleCanvasComplete.
    cbn [App.currentScreen App.drawingData App.spiralParams
         App.questionnaireData].
    now rewrite Hlen. }
  split; [exact H1|].
  destruct (calculateDemoScore_completes (App.questionnaireData s) pts
              {| a := a0; b := b0 |} random now Hne)
    as (? & ? & ? & ? & _ & _ & _ & _ & Hc).
  eexists. split; [exact Hc|].
  unfold App.step at 1. rewrite H1.
  unfold s1, App.step. rewrite Hr.
  unfold App.render, App.handleProcessingComplete, App.handleCanvasComplete.
  cbn [App.currentScreen App.drawingData App.spiralParams App.scoreData
       App.questionnaireData].
  now rewrite Hlen.
Qed.

Lemma confirmed_questionnaire_is_complete_witness :
  QuestionnaireScreen.ConfirmClick = QuestionnaireScreen.ConfirmClick /\
  {| age := "64"; hasMovementDisorder := "no"; disorderType := "" |}
  = QuestionnaireScreen.run answers /\
  age {| age := "64"; hasMovementDisorder := "no"; disorderType := "" |}
  <> ""%string /\
  ((hasMovementDisorder
      {| age := "64"; hasMovementDisorder := "no"; disorderType := "" |}
    = "no"%string /\
    disorderType
      {| age := "64"; hasMovementDisorder := "no"; disorderType := "" |}
    = ""%string /\
    movementDisorderShown
      {| age := "64"; hasMovementDisorder := "no"; disorderType := "" |}
    = "None"%string) \/
   (hasMovementDisorder
      {| age := "64"; hasMovementDisorder := "no"; disorderType := "" |}
    = "yes"%string /\
    In (disorderType
          {| age := "64"; hasMovementDisorder := "no"; disorderType := "" |})
       QuestionnaireScreen.disorders /\
    movementDisorderShown
      {| age := "64"; hasMovementDisorder := "no"; disorderType := "" |}
    = disorderType
        {| age := "64"; hasMovementDisorder := "no";
           disorderType := "" |})).
Proof.
  apply (confirmed_questionnaire_is_complete answers).
  reflexivity.
Defined.

Lemma blank_screen_is_a_dead_end_witness :
  fold_left App.step
            [App.ProcessingComplete
               {| spiral_id := 0; severity_score := 1;
                  classification := "tremor_score_demo";
                  features := mkMetrics 0 0 0 0 0 |};
             App.ReturnHome; App.Start]
            empty_drawing_state
  = empty_drawing_state.
Proof.
  apply blank_screen_is_a_dead_end. reflexivity.
Defined.

Lemma app_never_blank_witness :
  App.render (App.run visit) <> App.Blank /\
  (App.currentScreen (App.run visit) = App.home ->
   App.run visit = App.initial) /\
  (App.currentScreen (App.run visit) = App.canvas ->
   App.drawingData (App.run visit) = [] /\
   App.scoreData (App.run visit) = None).
Proof.
  apply app_never_blank. unfold visit.
  repeat (constructor; [cbn [canvas_contract]; try exact I; discriminate|]).
  constructor.
Defined.

Lemma drawing_reaches_the_report_witness :
  App.render
    (App.step (App.run [App.Start; App.QuestionnaireConfirm info_no;
                        App.InstructionSkip])
              (App.CanvasComplete
                 (points (session (page_at 1000) two_strokes))
                 (a (drawReferenceSpiral 400 400))
                 (b (drawReferenceSpiral 400 400))))
  = App.ShowProcessing
      (App.questionnaireData
         (App.run [App.Start; App.QuestionnaireConfirm info_no;
                   App.InstructionSkip]))
      (points (session (page_at 1000) two_strokes))
      {| a := a (drawReferenceSpiral 400 400);
         b := b (drawReferenceSpiral 400 400) |} /\
  exists sd,
    calculateDemoScore
      (Some (App.questionnaireData
               (App.run [App.Start; App.QuestionnaireConfirm info_no;
                         App.InstructionSkip])))
      (points (session (page_at 1000) two_strokes))
      (Some {| a := a (drawReferenceSpiral 400 400);
               b := b (drawReferenceSpiral 400 400) |}) (1 / 2) 1700000000000
    = Completed sd /\
    App.render
      (App.step
         (App.step (App.run [App.Start; App.QuestionnaireConfirm info_no;
                             App.InstructionSkip])
                   (App.CanvasComplete
                      (points (session (page_at 1000) two_strokes))
                      (a (drawReferenceSpiral 400 400))
                      (b (drawReferenceSpiral 400 400))))
         (App.ProcessingComplete sd))
    = App.ShowReport
        (points (session (page_at 1000) two_strokes))
        (App.questionnaireData
           (App.run [App.Start; App.QuestionnaireConfirm info_no;
                     App.InstructionSkip])) sd.
Proof.
  apply (drawing_reaches_the_report _ (page_at 1000) two_strokes).
  - reflexivity.
  - reflexivity.
Defined.

(** ** The scorer on what the canvas hands over *)

Lemma atan2_first_quadrant (y0 x0 : R) :
  0 <= x0 -> 0 <= y0 -> 0 <= atan2 y0 x0 <= PI / 2.
Proof.
  intros Hx Hy. pose proof PI_RGT_0. unfold atan2.
  destruct (Rlt_dec 0 x0) as [Hpos|Hn].
  - pose proof (atan_bound (y0 / x0)) as Hb. split; [|lra].
    destruct Hy as [Hy|<-].
    + rewrite <- atan_0. apply Rlt_le, atan_increasing.
      apply Rdiv_lt_0_compat; assumption.
    + unfold Rdiv. rewrite Rmult_0_l, atan_0. lra.
  - destruct (Rlt_dec x0 0); [lra|].
    destruct (Rlt_dec 0 y0); [lra|].
    destruct (Rlt_dec y0 0); lra.
Qed.

Lemma Rsum_map_lower (A : Type) (f : A -> R) (l : list A) (c : R) :
  (forall v, In v l -> c <= f v) -> c * INR (length l) <= Rsum (map f l).
Proof.
  induction l as [|h r IH]; intros H.
  - simpl. lra.
  - rewrite map_cons, Rsum_cons. cbn [length]. rewrite S_INR.
    assert (c <= f h) by (apply H; now left).
    assert (c * INR (length r) <= Rsum (map f r)).
    { apply IH. intros v Hv. apply H. now right. }
    lra.
Qed.

(** X15. With the parameters the canvas hands over the scorer measures from
    the origin of the canvas, its top left corner, where [a = 0] puts it,
    and the ideal radius of a sample inside the canvas never exceeds
    0.35 * min (width, height) / 12.  So when each of the first
    min (100, n) samples is at least 100 plus that bound away from the
    corner, the spiral deviation is at least 100 and the deviation score is
    at its cap 2, however the trace is drawn. *)
Theorem canvas_parameters_saturate_deviation (width height : R)
    (pts : list DrawingPoint) :
  0 <= width -> 0 <= height -> pts <> [] ->
  (forall pt, In pt (firstn 100 pts) ->
     0 <= x pt /\ 0 <= y pt /\
     100 + Rmin width height * (35 / 100) / 12
     <= sqrt (x pt ^ 2 + y pt ^ 2)) ->
  exists d,
    deviation pts (drawReferenceSpiral width height) = Some d /\
    100 <= d /\ deviationScore d = 2.
Proof.
  intros Hw Hh Hne Hpts. pose proof PI_RGT_0 as Hpi.
  set (p := drawReferenceSpiral width height).
  assert (Hm : 0 <= Rmin width height) by (apply Rmin_glb; assumption).
  assert (Hb : b p * (PI / 2) = Rmin width height * (35 / 100) / 12).
  { unfold p, drawReferenceSpiral, totalAngle, turns. cbn [b].
    field. lra. }
  assert (Hb0 : 0 <= b p).
  { unfold p, drawReferenceSpiral, totalAngle, turns. cbn [b].
    apply Rmult_le_pos; [nra|]. apply Rlt_le, Rinv_0_lt_compat. lra. }
  assert (Hterm : forall pt, In pt (firstn 100 pts) ->
                    100 <= deviation_term p pt).
  { intros pt Hin. destruct (Hpts pt Hin) as (Hx & Hy & Hd).
    unfold deviation_term. change (a p) with 0.
    rewrite !Rminus_0_r, Rplus_0_l.
    destruct (atan2_first_quadrant (y pt) (x pt) Hx Hy) as [Ha0 Ha1].
    assert (b p * atan2 (y pt) (x pt) <= b p * (PI / 2))
      by (apply Rmult_le_compat_l; assumption).
    eapply Rle_trans; [|apply Rle_abs]. lra. }
  rewrite deviation_closed. eexists. split; [reflexivity|].
  rewrite Rmin_100_length.
  set (l := firstn 100 pts) in *.
  assert (Hl : 0 < INR (length l)).
  { apply lt_0_INR. unfold l. rewrite length_firstn.
    destruct pts; [contradiction|]. cbn [length]. lia. }
  pose proof (Rsum_map_lower _ (deviation_term p) l 100 Hterm) as Hs.
  assert (Hd : 100 <= Rsum (map (deviation_term p) l) / INR (length l)).
  { apply Rmult_le_reg_r with (INR (length l)); [assumption|].
    unfold Rdiv. rewrite Rmult_assoc, Rinv_l by lra. lra. }
  split; [exact Hd|].
  unfold deviationScore. apply Rmin_right. lra.
Qed.

Lemma sqrt_lower (c s : R) : 0 <= c -> c * c <= s -> c <= sqrt s.
Proof.
  intros Hc Hs. rewrite <- (sqrt_square c) at 1 by assumption.
  apply sqrt_le_1; nra.
Qed.

Lemma canvas_parameters_saturate_deviation_witness :
  exists d,
    deviation quarter_turn_trace (drawReferenceSpiral 400 400) = Some d /\
    100 <= d /\ deviationScore d = 2.
Proof.
  apply canvas_parameters_saturate_deviation; [lra|lra|discriminate|].
  intros pt Hin. cbn [quarter_turn_trace firstn In] in Hin.
  rewrite Rmin_left by lra.
  destruct Hin as [<-|[<-|[<-|[<-|[<-|[]]]]]]; cbn [x y];
    (split; [lra|]); (split; [lra|]); apply sqrt_lower; lra.
Defined.

(** ** The variant that asks the scoring service *)

Section Backend.

Import BackendProcessingScreen.

Variable parseInt : string -> option Z.
Variable Json : Type.
Variable idText : Json -> option string.
Variable nullReadMessage : string.

(** X16. The variant that asks the scoring service sends no request when a
    prop is missing or the trace is empty; otherwise it sends the request
    that creates the spiral and, only when that request is answered with
    success and a body from which the id can be read, one request to score
    the spiral of that id, and nothing else.  [onComplete] is called only
    after both requests, with the body of a successful answer to the
    second. *)
Theorem scoring_is_requested_only_for_a_created_spiral
    (pinfo : option QuestionnaireData) (pts : list DrawingPoint)
    (pparams : option SpiralParams)
    (fetch : Request -> Settled (Response Json)) :
  (fst (sendSpiralToBackend parseInt Json idText nullReadMessage
          pinfo pts pparams fetch) = [] <->
   pinfo = None \/ pts = [] \/ pparams = None) /\
  (fst (sendSpiralToBackend parseInt Json idText nullReadMessage
          pinfo pts pparams fetch) = [] ->
   snd (sendSpiralToBackend parseInt Json idText nullReadMessage
          pinfo pts pparams fetch) = ShowError MissingProps) /\
  (forall info p,
     pinfo = Some info -> pparams = Some p -> pts <> [] ->
     fst (sendSpiralToBackend parseInt Json idText nullReadMessage
          pinfo pts pparams fetch)
     = [CreateSpiral (buildPayload parseInt info pts p)] \/
     exists createResponse savedSpiralData id,
       fetch (CreateSpiral (buildPayload parseInt info pts p))
       = Fulfilled createResponse /\
       ok createResponse = true /\
       json createResponse = Fulfilled savedSpiralData /\
       idText savedSpiralData = Some id /\
       fst (sendSpiralToBackend parseInt Json idText nullReadMessage
          pinfo pts pparams fetch)
       = [CreateSpiral (buildPayload parseInt info pts p);
          ScoreSpiral id]) /\
  (forall scoredResult,
     snd (sendSpiralToBackend parseInt Json idText nullReadMessage
          pinfo pts pparams fetch) = CallOnComplete scoredResult ->
     exists info p id scoreResponse,
       pinfo = Some info /\ pparams = Some p /\
       fst (sendSpiralToBackend parseInt Json idText nullReadMessage
          pinfo pts pparams fetch)
       = [CreateSpiral (buildPayload parseInt info pts p);
          ScoreSpiral id] /\
       fetch (ScoreSpiral id) = Fulfilled scoreResponse /\
       ok scoreResponse = true /\
       json scoreResponse = Fulfilled scoredResult).
Proof.
  unfold sendSpiralToBackend.
  destruct pinfo as [info|], pparams as [p|];
    try (split; [split; [intros _; tauto|reflexivity]|];
         split; [reflexivity|];
         split; [intros ? ? ? ?; discriminate|];
         intros ? H; discriminate H).
  destruct pts as [|q r].
  { split; [split; [intros _; tauto|reflexivity]|].
    split; [reflexivity|].
    split; [intros ? ? _ _ H; contradiction|].
    intros ? H; discriminate H. }
  cbn [length Nat.eqb].
  set (payload := buildPayload parseInt info (q :: r) p).
  assert (Hnil : forall A (l : list A) (v : A), v :: l = [] <->
                   Some info = None \/ q :: r = [] \/ Some p = None).
  { intros A l v. split; [discriminate|].
    intros [H|[H|H]]; discriminate. }
  assert (Hone : forall info' p',
            Some info = Some info' -> Some p = Some p' -> q :: r <> [] ->
            [CreateSpiral payload]
            = [CreateSpiral (buildPayload parseInt info' (q :: r) p')] \/
            exists createResponse savedSpiralData id,
              fetch (CreateSpiral (buildPayload parseInt info' (q :: r) p'))
              = Fulfilled createResponse /\
              ok createResponse = true /\
              json createResponse = Fulfilled savedSpiralData /\
              idText savedSpiralData = Some id /\
              [CreateSpiral payload]
              = [CreateSpiral (buildPayload parseInt info' (q :: r) p');
                 ScoreSpiral id]).
  { intros info' p' Hi Hp _. inversion Hi; inversion Hp; subst.
    left. reflexivity. }
  destruct (fetch (CreateSpiral payload)) as [createResponse|msg] eqn:Ec.
  2:{ cbn [fst snd]. split; [apply Hnil|]. split; [discriminate|].
      split; [exact Hone|intros ? H; discriminate H]. }
  destruct (ok createResponse) eqn:Eok; cbn [negb].
  2:{ destruct (text createResponse); cbn [fst snd];
        (split; [apply Hnil|]; split; [discriminate|];
         split; [exact Hone|intros ? H; discriminate H]). }
  destruct (json createResponse) as [saved|msg] eqn:Ej.
  2:{ cbn [fst snd]. split; [apply Hnil|]. split; [discriminate|].
      split; [exact Hone|intros ? H; discriminate H]. }
  unfold scoreCreated.
  destruct (idText saved) as [id|] eqn:Eid.
  2:{ cbn [fst snd]. split; [apply Hnil|]. split; [discriminate|].
      split; [exact Hone|intros ? H; discriminate H]. }
  cbn [fst snd]. split; [apply Hnil|]. split; [discriminate|]. split.
  - intros info' p' Hi Hp _. inversion Hi; inversion Hp; subst.
    right. exists createResponse, saved, id. now repeat split.
  - intros scoredResult.
    destruct (fetch (ScoreSpiral id)) as [scoreResponse|msg] eqn:Es;
      [|discriminate].
    destruct (ok scoreResponse) eqn:Eok2; cbn [negb].
    + destruct (json scoreResponse) as [res|msg] eqn:Ej2;
        [|discriminate].
      intros H. inversion H; subst.
      exists info, p, id, scoreResponse. now repeat split.
    + destruct (text scoreResponse); discriminate.
Qed.

(** X17. The payload keeps every sample, in order and with its timestamp,
    once in pixels and once in millimetres, and converts the spiral
    parameters by the same factor: a sample on the spiral in pixels about a
    centre is, in millimetres, on the spiral of the converted parameters
    about the converted centre, at the same angle. *)
Theorem payload_conversion_keeps_the_spiral (info : QuestionnaireData)
    (pts : list DrawingPoint) (p : SpiralParams) (i : nat)
    (pt : DrawingPoint) :
  nth_error pts i = Some pt ->
  length (raw_json (buildPayload parseInt info pts p)) = length pts /\
  length (normalized_json (buildPayload parseInt info pts p))
  = length pts /\
  nth_error (raw_json (buildPayload parseInt info pts p)) i
  = Some {| point_x := x pt; point_y := y pt; t_ms := t pt |} /\
  exists n,
    nth_error (normalized_json (buildPayload parseInt info pts p)) i
    = Some n /\
    t_ms n = t pt /\
    forall centerX centerY theta,
      on_spiral centerX centerY p theta pt ->
      point_x n
      = centerX * mmPerUnit
        + (form_a (form_json (buildPayload parseInt info pts p))
           + form_b (form_json (buildPayload parseInt info pts p)) * theta)
          * cos theta /\
      point_y n
      = centerY * mmPerUnit
        + (form_a (form_json (buildPayload parseInt info pts p))
           + form_b (form_json (buildPayload parseInt info pts p)) * theta)
          * sin theta.
Proof.
  intros Hi. unfold buildPayload.
  cbn [raw_json normalized_json form_json form_a form_b].
  rewrite !length_map. split; [reflexivity|]. split; [reflexivity|].
  rewrite !nth_error_map, Hi. cbn [option_map].
  split; [reflexivity|]. eexists. split; [reflexivity|].
  cbn [t_ms point_x point_y]. split; [reflexivity|].
  intros centerX centerY theta [Hx Hy]. rewrite Hx, Hy. split; ring.
Qed.

End Backend.

Lemma scoring_is_requested_only_for_a_created_spiral_witness :
  exists info p id scoreResponse,
    Some info_no = Some info /\ Some unit_params = Some p /\
    fst (BackendProcessingScreen.sendSpiralToBackend sample_parseInt string
           Some "Cannot read properties of null" (Some info_no)
           half_turn_trace (Some unit_params) sample_fetch)
    = [BackendProcessingScreen.CreateSpiral
         (BackendProcessingScreen.buildPayload sample_parseInt info
            half_turn_trace p);
       BackendProcessingScreen.ScoreSpiral id] /\
    sample_fetch (BackendProcessingScreen.ScoreSpiral id)
    = BackendProcessingScreen.Fulfilled scoreResponse /\
    BackendProcessingScreen.ok scoreResponse = true /\
    BackendProcessingScreen.json scoreResponse
    = BackendProcessingScreen.Fulfilled "scored"%string.
Proof.
  apply (proj2 (proj2 (proj2
           (scoring_is_requested_only_for_a_created_spiral sample_parseInt
              string Some "Cannot read properties of null" (Some info_no)
              half_turn_trace (Some unit_params) sample_fetch)))).
  reflexivity.
Defined.

Lemma payload_conversion_keeps_the_spiral_witness :
  length (BackendProcessingScreen.raw_json sample_payload)
  = length half_turn_trace /\
  length (BackendProcessingScreen.normalized_json sample_payload)
  = length half_turn_trace /\
  nth_error (BackendProcessingScreen.raw_json sample_payload) 1
  = Some {| BackendProcessingScreen.point_x := 0;
            BackendProcessingScreen.point_y := PI / 2;
            BackendProcessingScreen.t_ms := 100 |} /\
  exists n,
    nth_error (BackendProcessingScreen.normalized_json sample_payload) 1
    = Some n /\
    BackendProcessingScreen.t_ms n = 100 /\
    forall centerX centerY theta,
      on_spiral centerX centerY unit_params theta (mkPoint 0 (PI / 2) 100) ->
      BackendProcessingScreen.point_x n
      = centerX * BackendProcessingScreen.mmPerUnit
        + (BackendProcessingScreen.form_a
             (BackendProcessingScreen.form_json sample_payload)
           + BackendProcessingScreen.form_b
               (BackendProcessingScreen.form_json sample_payload) * theta)
          * cos theta /\
      BackendProcessingScreen.point_y n
      = centerY * BackendProcessingScreen.mmPerUnit
        + (BackendProcessingScreen.form_a
             (BackendProcessingScreen.form_json sample_payload)
           + BackendProcessingScreen.form_b
               (BackendProcessingScreen.form_json sample_payload) * theta)
          * sin theta.
Proof.
  apply (payload_conversion_keeps_the_spiral sample_parseInt info_no
           half_turn_trace unit_params 1 (mkPoint 0 (PI / 2) 100)).
  reflexivity.
Defined.
